(** * Arthur Health ETL notebooks: orchestration, extraction, enrichment, load

    A shallow embedding of the four Synapse notebooks
    [00_master_orchestration.py], [01_patients_etl.py],
    [02_medications_etl.py] and [03_patient_medication_relationships.py].

    Conventions.
    - Python [int] is [Z]; Python [str] is [string] for configuration
      literals and a list of code points for free text (section Enrichment).
    - [datetime.now()] returns a number of microseconds read from the world;
      a duration is the difference of two readings (the source divides it
      into float seconds, which no property below depends on).
    - Every [print] that tells what a notebook does is an [Output] event;
      a run returns the events it printed, in order. Purely decorative
      prints are left out.
    - The collaborators ([dbutils.notebook.run], the clock, [requests.post],
      the warehouse's conversion of a literal to a datetime) are section
      variables: every theorem holds for every behaviour they can have. *)

From Stdlib Require Import ZArith Qcanon Ascii String Lia.
From stdpp Require Import numbers gmap strings list fin_maps.

Local Open Scope string_scope.
Local Open Scope list_scope.

Local Set Warnings "-register-all,-abstract-large-number".

(** ** Data of the master orchestration notebook *)

(** The module-level configuration of [00_master_orchestration.py]. *)
Record Config := {
  ETL_RUN_ID : Z;
  INCREMENTAL_MODE : bool;
  LAST_SUCCESSFUL_RUN : string;
  NOTEBOOK_TIMEOUT_SECONDS : Z;
  PARALLEL_EXECUTION : bool
}.

(** One entry of a stage's ["notebooks"] list. *)
Record Notebook := {
  path : string;
  name : string;
  timeout : Z;
  parameters : gmap string string
}.

(** One value of the [etl_pipeline] dict. *)
Record StageConfig := {
  description : string;
  parallel : bool;
  notebooks : list Notebook
}.

(** The dict [{"result": ..., "error": ...}] built by
    [run_notebook_with_logging]; [None] is Python's [None]. *)
Record RunResult := {
  result_value : option string;
  error : option string
}.

(** The dict appended to [results] for every notebook that was run. *)
Record NotebookResult := {
  notebook : string;
  success : bool;
  duration : Z;
  result : RunResult
}.

(** The dict stored in [pipeline_results[stage_name]]. *)
Record StageResult := {
  stage_success : bool;
  stage_results : list NotebookResult
}.

(** What the notebook prints, as far as it tells what was done. *)
Inductive Output :=
| out_starting (notebook_name : string)
| out_completed (notebook_name : string)
| out_failed (notebook_name err : string)
| out_stage (stage_name : string)
| out_parallel
| out_sequential
| out_critical_stop
| out_stage_failed (stage_name : string)
| out_next_timestamp (t : Z)
| out_pipeline_failed
| out_embedding_failed (err : string).

(** [str(b)] for a Python bool. *)
Definition str_bool (b : bool) : string := if b then "True" else "False".

(** A Python dict that is iterated in insertion order: an association list.
    [dict_set] is [d[k] = v]: an existing key keeps its place. *)
Fixpoint dict_set {V} (k : string) (v : V) (d : list (string * V)) : list (string * V) :=
  match d with
  | [] => [(k, v)]
  | (k', v') :: d' =>
      if String.eqb k' k then (k', v) :: d' else (k', v') :: dict_set k v d'
  end.

Fixpoint dict_get {V} (k : string) (d : list (string * V)) : option V :=
  match d with
  | [] => None
  | (k', v') :: d' => if String.eqb k' k then Some v' else dict_get k d'
  end.

Definition dict_values {V} (d : list (string * V)) : list V := map snd d.
Definition dict_keys {V} (d : list (string * V)) : list string := map fst d.

(** Python's [sum] over integers. *)
Definition py_sum (l : list Z) : Z := fold_left Z.add l 0%Z.

(** The stage table of the notebook, built from the configuration. *)
Definition etl_pipeline (cfg : Config) : list (string * StageConfig) :=
  let params : gmap string string :=
    <["INCREMENTAL_MODE" := str_bool (INCREMENTAL_MODE cfg)]>
      (<["LAST_RUN_TIMESTAMP" := LAST_SUCCESSFUL_RUN cfg]> ∅) in
  [ ("stage_1_entities",
      {| description := "Load entity nodes (can run in parallel)";
         parallel := true;
         notebooks :=
           [ {| path := "/arthur-health/01_patients_etl";
                name := "patients"; timeout := 3600; parameters := params |};
             {| path := "/arthur-health/02_medications_etl";
                name := "medications"; timeout := 3600; parameters := params |} ] |});
    ("stage_2_relationships",
      {| description := "Create relationships between entities (requires stage 1 complete)";
         parallel := true;
         notebooks :=
           [ {| path := "/arthur-health/03_patient_medication_relationships";
                name := "patient_medication_relationships";
                timeout := 3600; parameters := params |} ] |});
    ("stage_3_validation",
      {| description := "Data quality validation and gap detection";
         parallel := false;
         notebooks := [] |}) ].

(** The constants of the notebook as shipped; the run id is taken from the
    clock when the notebook starts. *)
Definition shipped_config (run_id : Z) : Config :=
  {| ETL_RUN_ID := run_id;
     INCREMENTAL_MODE := true;
     LAST_SUCCESSFUL_RUN := "2025-01-01 00:00:00";
     NOTEBOOK_TIMEOUT_SECONDS := 3600;
     PARALLEL_EXECUTION := false |}.

(** The notebook's summary dict [etl_metadata]. *)
Record Metadata := {
  run_id : Z;
  pipeline_name : string;
  start_time : Z;
  end_time : Z;
  duration_seconds : Z;
  status : string;
  incremental_mode : bool;
  last_successful_run : string;
  stages_executed : Z;
  stages_succeeded : Z;
  stages_failed : Z;
  notebooks_executed : Z;
  notebooks_succeeded : Z;
  notebooks_failed : Z;
  detailed_results : list (string * StageResult)
}.

(** How the notebook ends: [dbutils.notebook.exit] with the status and the
    two counts, or the exception raised by the final status cell. *)
Inductive Exit :=
| exit_json (exit_status : string) (succeeded failed : Z)
| exit_raised.

Definition pipeline_status (pipeline_success : bool) : string :=
  if pipeline_success then "success" else "failed".

Definition build_metadata (cfg : Config) (t0 t1 : Z) (pipeline_success : bool)
    (pipeline_results : list (string * StageResult)) : Metadata :=
  let vals := dict_values pipeline_results in
  {| run_id := ETL_RUN_ID cfg;
     pipeline_name := "arthur_health_master_etl";
     start_time := t0;
     end_time := t1;
     duration_seconds := (t1 - t0)%Z;
     status := pipeline_status pipeline_success;
     incremental_mode := INCREMENTAL_MODE cfg;
     last_successful_run := LAST_SUCCESSFUL_RUN cfg;
     stages_executed := Z.of_nat (length pipeline_results);
     stages_succeeded :=
       py_sum (map (fun _ => 1%Z) (List.filter (fun s => stage_success s) vals));
     stages_failed :=
       py_sum (map (fun _ => 1%Z) (List.filter (fun s => negb (stage_success s)) vals));
     notebooks_executed :=
       py_sum (map (fun s => Z.of_nat (length (stage_results s))) vals);
     notebooks_succeeded :=
       py_sum (map (fun s =>
         py_sum (map (fun _ => 1%Z)
                     (List.filter (fun nb => success nb) (stage_results s)))) vals);
     notebooks_failed :=
       py_sum (map (fun s =>
         py_sum (map (fun _ => 1%Z)
                     (List.filter (fun nb => negb (success nb)) (stage_results s)))) vals);
     detailed_results := pipeline_results |}.

(** ** Running a notebook: the world and what is printed *)

Section Monad.

Variable World : Type.

(** A step of a notebook: from the outside world to the world it leaves,
    what it printed, and its value. *)
Definition Run (A : Type) : Type := World -> World * list Output * A.

Definition ret {A} (a : A) : Run A := fun w => (w, [], a).

Definition bind {A B} (c : Run A) (k : A -> Run B) : Run B :=
  fun w =>
    let '(w1, o1, a) := c w in
    let '(w2, o2, b) := k a w1 in
    (w2, o1 ++ o2, b).

Definition print (o : Output) : Run unit := fun w => (w, [o], tt).

(** A call to a collaborator: it may change the world and prints nothing. *)
Definition call {A} (f : World -> World * A) : Run A :=
  fun w => let (w', a) := f w in (w', [], a).

End Monad.

Arguments ret {World A} _ _.
Arguments bind {World A B} _ _ _.
Arguments print {World} _ _.
Arguments call {World A} _ _.

Notation "'let*' x ':=' c 'in' k" := (bind c (fun x => k))
  (at level 10, x pattern, c at level 100, k at level 200).
Notation "c ;;; k" := (bind c (fun _ => k))
  (at level 100, right associativity).

(** ** The scheduler *)

Section Scheduler.

Context {World : Type}.

(** [dbutils.notebook.run(path, timeout_seconds, arguments)]: the exit value
    of the child notebook, or the text of the exception it ends with (a
    timeout included). *)
Variable dbutils_notebook_run :
  string -> Z -> gmap string string -> World -> World * (string + string).

(** [datetime.now()]. *)
Variable now : World -> World * Z.

Definition datetime_now : Run World Z := call now.

Definition notebook_run (notebook_path : string) (timeout_seconds : Z)
    (arguments : gmap string string) : Run World (string + string) :=
  call (dbutils_notebook_run notebook_path timeout_seconds arguments).

(** [run_notebook_with_logging]: the [try] body returns
    [(True, {...}, duration)], the [except Exception] handler
    [(False, {...}, duration)]. *)
Definition run_notebook_with_logging (notebook_path notebook_name : string)
    (params : gmap string string) (tmo : Z) : Run World (bool * RunResult * Z) :=
  let* t0 := datetime_now in
  print (out_starting notebook_name) ;;;
  let* r := notebook_run notebook_path tmo params in
  match r with
  | inl res =>
      let* t1 := datetime_now in
      print (out_completed notebook_name) ;;;
      ret (true, {| result_value := Some res; error := None |}, (t1 - t0)%Z)
  | inr e =>
      let* t1 := datetime_now in
      print (out_failed notebook_name e) ;;;
      ret (false, {| result_value := None; error := Some e |}, (t1 - t0)%Z)
  end.

(** The [for notebook in stage_config['notebooks']] loop of the branch taken
    when [stage_config['parallel'] and PARALLEL_EXECUTION]; [results] and
    [all_success] are the two local variables the loop updates. *)
Fixpoint parallel_branch (stage_name : string) (nbs : list Notebook)
    (results : list NotebookResult) (all_success : bool)
  : Run World (bool * list NotebookResult) :=
  match nbs with
  | [] => ret (all_success, results)
  | nb :: rest =>
      let* (ok, res, dur) := run_notebook_with_logging (path nb) (name nb)
                           (parameters nb) (timeout nb) in
      let results :=
        results ++ [ {| notebook := name nb; success := ok;
                        duration := dur; result := res |} ] in
      if negb ok then
        if String.eqb stage_name "stage_1_entities" then
          print out_critical_stop ;;; ret (false, results)
        else parallel_branch stage_name rest results false
      else parallel_branch stage_name rest results all_success
  end.

(** The loop of the [else] branch. *)
Fixpoint sequential_branch (stage_name : string) (nbs : list Notebook)
    (results : list NotebookResult) (all_success : bool)
  : Run World (bool * list NotebookResult) :=
  match nbs with
  | [] => ret (all_success, results)
  | nb :: rest =>
      let* (ok, res, dur) := run_notebook_with_logging (path nb) (name nb)
                           (parameters nb) (timeout nb) in
      let results :=
        results ++ [ {| notebook := name nb; success := ok;
                        duration := dur; result := res |} ] in
      if negb ok then
        if String.eqb stage_name "stage_1_entities" then
          print out_critical_stop ;;; ret (false, results)
        else sequential_branch stage_name rest results false
      else sequential_branch stage_name rest results all_success
  end.

Definition run_stage (cfg : Config) (stage_name : string)
    (stage_config : StageConfig) : Run World (bool * list NotebookResult) :=
  print (out_stage stage_name) ;;;
  if parallel stage_config && PARALLEL_EXECUTION cfg then
    print out_parallel ;;;
    parallel_branch stage_name (notebooks stage_config) [] true
  else
    print out_sequential ;;;
    sequential_branch stage_name (notebooks stage_config) [] true.

(** The [for stage_name, stage_config in etl_pipeline.items()] loop;
    [pipeline_success] starts as [True] and is only ever set to [False]
    right before the [break]. *)
Fixpoint pipeline_loop (cfg : Config) (stages : list (string * StageConfig))
    (pipeline_results : list (string * StageResult))
  : Run World (bool * list (string * StageResult)) :=
  match stages with
  | [] => ret (true, pipeline_results)
  | (stage_name, stage_config) :: rest =>
      let* (ok, results) := run_stage cfg stage_name stage_config in
      let pipeline_results :=
        dict_set stage_name {| stage_success := ok; stage_results := results |}
                 pipeline_results in
      if negb ok then
        print (out_stage_failed stage_name) ;;; ret (false, pipeline_results)
      else pipeline_loop cfg rest pipeline_results
  end.

(** The final status cell and the [dbutils.notebook.exit] after it. *)
Definition final_status (pipeline_success : bool) (pipeline_end_time : Z)
    (md : Metadata) : Run World Exit :=
  if pipeline_success then
    print (out_next_timestamp pipeline_end_time) ;;;
    ret (exit_json (pipeline_status pipeline_success)
                   (notebooks_succeeded md) (notebooks_failed md))
  else
    print out_pipeline_failed ;;; ret exit_raised.

(** The notebook from its fourth cell on, over a stage table [pipeline]:
    the globals it leaves behind, the metadata and the way it ends. *)
Definition master_run (cfg : Config) (pipeline : list (string * StageConfig))
  : Run World (Config * Metadata * Exit) :=
  let* t0 := datetime_now in
  let* (pipeline_success, pipeline_results) := pipeline_loop cfg pipeline [] in
  let* t1 := datetime_now in
  let md := build_metadata cfg t0 t1 pipeline_success pipeline_results in
  let* ex := final_status pipeline_success t1 md in
  ret (cfg, md, ex).

(** The whole notebook as shipped: the configuration cell reads the clock
    for the run id and sets the constants, then the stages run. *)
Definition master_orchestration : Run World (Config * Metadata * Exit) :=
  let* rid := datetime_now in
  let cfg := shipped_config rid in
  master_run cfg (etl_pipeline cfg).

End Scheduler.

(** ** Extraction: the [sql_query] of the three unit notebooks *)

(** A property value of a row, a node or a relationship. *)
Inductive Value :=
| VNull
| VInt (z : Z)
| VStr (s : string)
| VBool (b : bool)
| VReal (q : Qc)
| VVector (v : list Qc).

Global Instance Value_eq_dec : EqDecision Value.
Proof. solve_decision. Defined.

(** A row of a warehouse table. The two audit columns are datetimes, as
    numbers on the scale of [cast_datetime] below, or NULL ([None]). *)
Record SourceRecord := {
  last_modified : option Z;
  created_at : option Z;
  other_columns : gmap string Value
}.

Inductive Column := col_last_modified | col_created_at.

(** The [WHERE] clauses the notebooks write: a column compared with a
    quoted literal, and [OR]. *)
Inductive Predicate :=
| p_gt (c : Column) (literal : string)
| p_or (a b : Predicate).

(** The parenthesised [SELECT] handed to the JDBC reader as ["dbtable"]. *)
Record SqlQuery := {
  select_list : list string;
  from_table : string;
  where_clause : option Predicate;
  alias : string
}.

Definition patients_columns : list string :=
  [ "patient_id"; "mrn"; "first_name"; "last_name"; "date_of_birth"; "gender";
    "phone_number"; "email"; "address_line1"; "address_line2"; "city"; "state";
    "zip_code"; "insurance_provider"; "insurance_plan_id"; "insurance_member_id";
    "plan_type"; "policy_text"; "clinical_narrative"; "risk_score";
    "chronic_conditions_count"; "active_medications_count"; "last_visit_date";
    "next_appointment_date"; "primary_care_provider_id"; "care_coordinator_id";
    "preferred_language"; "communication_preference"; "hipaa_consent";
    "last_modified"; "created_at" ].

Definition medications_columns : list string :=
  [ "medication_id"; "rxnorm_code"; "generic_name"; "brand_name"; "drug_class";
    "dosage_form"; "strength"; "instructions"; "side_effects";
    "contraindications"; "interactions"; "requires_prior_auth";
    "formulary_tier"; "estimated_cost_30day"; "estimated_cost_90day";
    "therapeutic_category"; "controlled_substance_schedule";
    "pregnancy_category"; "fda_approved_date"; "last_modified"; "created_at" ].

Definition prescriptions_columns : list string :=
  [ "prescription_id"; "patient_id"; "medication_id"; "prescribing_provider_id";
    "prescribed_date"; "start_date"; "end_date"; "dosage"; "frequency";
    "duration_days"; "refills_allowed"; "refills_remaining"; "last_refill_date";
    "next_refill_due_date"; "pharmacy_id"; "adherence_score";
    "missed_doses_30days"; "days_supply"; "quantity"; "prior_auth_status";
    "prior_auth_expiry_date"; "denial_reason"; "cost_patient"; "cost_insurance";
    "status"; "discontinuation_reason"; "prescribing_reason"; "last_modified";
    "created_at" ].

(** [WHERE last_modified > '{LAST_RUN_TIMESTAMP}'
     OR created_at > '{LAST_RUN_TIMESTAMP}']: the f-string pastes the
    constant between quotes. The clause is the one below when the constant
    has no quote character in it, which is when the warehouse reads what
    stands between the quotes as one literal; a constant with a quote in
    it ends the literal early and makes another clause, which this
    definition does not describe ([has_quote] below tells the two apart). *)
Definition incremental_where (LAST_RUN_TIMESTAMP : string) : Predicate :=
  p_or (p_gt col_last_modified LAST_RUN_TIMESTAMP)
       (p_gt col_created_at LAST_RUN_TIMESTAMP).

(** [01_patients_etl.py], [if INCREMENTAL_MODE: sql_query = f"..." else: ...]. *)
Definition patients_sql_query (INCREMENTAL_MODE : bool)
    (LAST_RUN_TIMESTAMP : string) : SqlQuery :=
  if INCREMENTAL_MODE then
    {| select_list := patients_columns;
       from_table := "healthcare_fhir.patients";
       where_clause := Some (incremental_where LAST_RUN_TIMESTAMP);
       alias := "patients_incremental" |}
  else
    {| select_list := patients_columns;
       from_table := "healthcare_fhir.patients";
       where_clause := None;
       alias := "patients_full" |}.

(** [02_medications_etl.py]. *)
Definition medications_sql_query (INCREMENTAL_MODE : bool)
    (LAST_RUN_TIMESTAMP : string) : SqlQuery :=
  if INCREMENTAL_MODE then
    {| select_list := medications_columns;
       from_table := "healthcare_fhir.medications";
       where_clause := Some (incremental_where LAST_RUN_TIMESTAMP);
       alias := "medications_incremental" |}
  else
    {| select_list := medications_columns;
       from_table := "healthcare_fhir.medications";
       where_clause := None;
       alias := "medications_full" |}.

(** [03_patient_medication_relationships.py]. *)
Definition prescriptions_sql_query (INCREMENTAL_MODE : bool)
    (LAST_RUN_TIMESTAMP : string) : SqlQuery :=
  if INCREMENTAL_MODE then
    {| select_list := prescriptions_columns;
       from_table := "healthcare_fhir.prescriptions";
       where_clause := Some (incremental_where LAST_RUN_TIMESTAMP);
       alias := "prescriptions_incremental" |}
  else
    {| select_list := prescriptions_columns;
       from_table := "healthcare_fhir.prescriptions";
       where_clause := None;
       alias := "prescriptions_full" |}.

(** The constants of the unit notebooks as shipped. *)
Definition unit_INCREMENTAL_MODE : bool := true.
Definition unit_LAST_RUN_TIMESTAMP : string := "2025-01-01 00:00:00".

(** SQL's three truth values; a row is kept when the clause is [sql_true]. *)
Inductive truth := sql_true | sql_false | sql_unknown.

Definition sql_or (a b : truth) : truth :=
  match a, b with
  | sql_true, _ | _, sql_true => sql_true
  | sql_false, sql_false => sql_false
  | _, _ => sql_unknown
  end.

Definition is_true (t : truth) : bool :=
  match t with sql_true => true | _ => false end.

Definition column_value (c : Column) (r : SourceRecord) : option Z :=
  match c with
  | col_last_modified => last_modified r
  | col_created_at => created_at r
  end.

(** [column > w]: unknown on NULL. *)
Definition sql_gt (v : option Z) (w : Z) : truth :=
  match v with
  | None => sql_unknown
  | Some t => if (w <? t)%Z then sql_true else sql_false
  end.

(** The plain reading of "the column is later than [w]": false on NULL. *)
Definition later_than (w : Z) (v : option Z) : bool :=
  match v with
  | None => false
  | Some t => (w <? t)%Z
  end.

Section Warehouse.

(** The warehouse's conversion of a quoted literal to a datetime; [None]
    is a conversion error, which fails the query. *)
Variable cast_datetime : string -> option Z.

(** A clause whose literals all convert becomes a test on rows. *)
Fixpoint compile_predicate (p : Predicate) : option (SourceRecord -> truth) :=
  match p with
  | p_gt c literal =>
      match cast_datetime literal with
      | Some w => Some (fun r => sql_gt (column_value c r) w)
      | None => None
      end
  | p_or a b =>
      match compile_predicate a, compile_predicate b with
      | Some fa, Some fb => Some (fun r => sql_or (fa r) (fb r))
      | _, _ => None
      end
  end.

(** The rows the JDBC read returns for a query over the rows of its table,
    in table order; [None] when the warehouse rejects the query. Every
    [SELECT] lists all the columns a row carries here, so a selected row is
    returned whole. *)
Definition run_query (q : SqlQuery) (table : list SourceRecord)
  : option (list SourceRecord) :=
  match where_clause q with
  | None => Some table
  | Some p =>
      match compile_predicate p with
      | Some f => Some (List.filter (fun r => is_true (f r)) table)
      | None => None
      end
  end.

End Warehouse.

(** A conversion for literals of the form [YYYY-MM-DD hh:mm:ss]: the number
    [YYYYMMDDhhmmss], which orders such literals as the instants they name. *)
Definition digit_value (a : ascii) : option Z :=
  let n := Z.of_N (N_of_ascii a) in
  if ((48 <=? n) && (n <=? 57))%Z then Some (n - 48)%Z else None.

Fixpoint digits_value (l : list ascii) (acc : Z) : option Z :=
  match l with
  | [] => Some acc
  | a :: l' =>
      match digit_value a with
      | Some d => digits_value l' (10 * acc + d)%Z
      | None => None
      end
  end.

Definition datetime_literal (s : string) : option Z :=
  match list_ascii_of_string s with
  | [y1; y2; y3; y4; a; m1; m2; b; d1; d2; c; h1; h2; d; n1; n2; e; s1; s2] =>
      if Ascii.eqb a "-" && Ascii.eqb b "-" && Ascii.eqb c " "
         && Ascii.eqb d ":" && Ascii.eqb e ":"
      then digits_value [y1; y2; y3; y4; m1; m2; d1; d2; h1; h2; n1; n2; s1; s2] 0
      else None
  | _ => None
  end.

(** ** Enrichment: [generate_embedding] *)

(** Free text is a Python [str]: a list of Unicode code points. *)
Definition text := list N.

(** [str.isspace] on one code point, which is what [str.strip()] removes. *)
Definition is_space (c : N) : bool :=
  ((9 <=? c) && (c <=? 13) || (28 <=? c) && (c <=? 32)
   || (c =? 133) || (c =? 160) || (c =? 5760)
   || (8192 <=? c) && (c <=? 8202)
   || (c =? 8232) || (c =? 8233) || (c =? 8239) || (c =? 8287)
   || (c =? 12288))%N.

Fixpoint lstrip (t : text) : text :=
  match t with
  | [] => []
  | c :: t' => if is_space c then lstrip t' else t
  end.

Definition rstrip (t : text) : text := rev (lstrip (rev t)).

(** [text.strip()]. *)
Definition strip (t : text) : text := rstrip (lstrip t).

Definition is_empty (t : text) : bool :=
  match t with [] => true | _ => false end.

(** A decoded JSON document, and the values [generate_embedding] returns. *)
Inductive PyVal :=
| PyNone
| PyBool (b : bool)
| PyInt (z : Z)
| PyFloat (q : Qc)
| PyStr (s : string)
| PyList (l : list PyVal)
| PyDict (d : list (string * PyVal)).

(** [[0.0] * 1536] *)
Definition zero_vector : PyVal := PyList (replicate 1536 (PyFloat 0%Qc)).

(** [obj[key]] for a string key: [KeyError] on a dict without the key,
    [TypeError] on anything that is not a dict. *)
Definition getitem_str (obj : PyVal) (key : string) : PyVal + string :=
  match obj with
  | PyDict d =>
      match dict_get key d with
      | Some v => inl v
      | None => inr "KeyError"
      end
  | _ => inr "TypeError"
  end.

(** [obj[0]]: the first element of a list, the first character of a string;
    a decoded JSON object has string keys only, so [0] is a [KeyError]. *)
Definition getitem_0 (obj : PyVal) : PyVal + string :=
  match obj with
  | PyList (v :: _) => inl v
  | PyList [] => inr "IndexError"
  | PyStr (String a _) => inl (PyStr (String a EmptyString))
  | PyStr EmptyString => inr "IndexError"
  | PyDict _ => inr "KeyError"
  | _ => inr "TypeError"
  end.

(** What [requests.post] returns; [body = None] is a body that is not
    JSON, on which [response.json()] raises. *)
Record Response := {
  status_code : Z;
  body : option PyVal
}.

(** [response.raise_for_status()]: [Some] is the [HTTPError] raised for a
    4xx or 5xx status. *)
Definition raise_for_status (r : Response) : option string :=
  if ((400 <=? status_code r) && (status_code r <? 600))%Z
  then Some "HTTPError" else None.

Definition response_json (r : Response) : PyVal + string :=
  match body r with
  | Some j => inl j
  | None => inr "JSONDecodeError"
  end.

(** The [payload] dict. *)
Record Payload := {
  input : text;
  encoding_format : string
}.

Definition AZURE_OPENAI_ENDPOINT : string := "https://arthur-health.openai.azure.com/".
Definition AZURE_OPENAI_DEPLOYMENT : string := "text-embedding-3-small".
Definition AZURE_OPENAI_API_VERSION : string := "2024-02-01".

(** The three locals [url], [headers] and [payload] of
    [generate_embedding]; the key is the secret read by
    [dbutils.secrets.get] when the notebook starts. *)
Definition embedding_url : string :=
  (AZURE_OPENAI_ENDPOINT ++ "openai/deployments/" ++ AZURE_OPENAI_DEPLOYMENT
   ++ "/embeddings?api-version=" ++ AZURE_OPENAI_API_VERSION)%string.

Definition embedding_headers (AZURE_OPENAI_KEY : string) : list (string * string) :=
  [ ("Content-Type", "application/json"); ("api-key", AZURE_OPENAI_KEY) ].

Definition embedding_payload (t : text) : Payload :=
  {| input := take 8000 t; encoding_format := "float" |}.

(** The statements of the [try] after the post: [raise_for_status()], then
    [response.json()["data"][0]["embedding"]]; [inr] is the exception that
    ends the [try]. *)
Definition decode_reply (r : Response + string) : PyVal + string :=
  match r with
  | inr e => inr e
  | inl response =>
      match raise_for_status response with
      | Some e => inr e
      | None =>
          match response_json response with
          | inr e => inr e
          | inl doc =>
              match getitem_str doc "data" with
              | inr e => inr e
              | inl data =>
                  match getitem_0 data with
                  | inr e => inr e
                  | inl first => getitem_str first "embedding"
                  end
              end
          end
      end
  end.

(** The ways the embedding service can fail a call. *)
Inductive service_failure : Response + string -> Prop :=
| failure_exception (e : string) :
    service_failure (inr e)
| failure_status (response : Response) :
    (400 <= status_code response < 600)%Z ->
    service_failure (inl response)
| failure_not_json (response : Response) :
    body response = None ->
    service_failure (inl response)
| failure_malformed (response : Response) (e : string) :
    decode_reply (inl response) = inr e ->
    service_failure (inl response).

Section Enrichment.

Context {World : Type}.

Variable AZURE_OPENAI_KEY : string.

(** [requests.post(url, headers=..., json=..., timeout=...)]: a response, or
    the text of the exception raised (timeout, connection error, ...). *)
Variable requests_post :
  string -> list (string * string) -> Payload -> Z -> World -> World * (Response + string).

(** [generate_embedding(text)]; [None] is a NULL column handed to the UDF. *)
Definition generate_embedding (txt : option text) : Run World PyVal :=
  match txt with
  | None => ret zero_vector
  | Some t =>
      if is_empty t || is_empty (strip t) then ret zero_vector
      else
        let url := embedding_url in
        let headers := embedding_headers AZURE_OPENAI_KEY in
        let payload := embedding_payload t in
        let* r := call (requests_post url headers payload 30) in
        match decode_reply r with
        | inl embedding => ret embedding
        | inr e => print (out_embedding_failed e) ;;; ret zero_vector
        end
  end.

(** One evaluation of [generate_embedding_udf(col(field))] over the rows of
    a column: [generate_embedding] applied to the field of every row, in
    row order, with the values as Python returns them. Spark runs such a
    pass each time an action needs the column, none when [withColumn] is
    called, and stores the values as 32-bit floats, which leaves a zero
    as it is. *)
Fixpoint embed_column (column : list (option text)) : Run World (list PyVal) :=
  match column with
  | [] => ret []
  | txt :: rest =>
      let* v := generate_embedding txt in
      let* vs := embed_column rest in
      ret (v :: vs)
  end.

End Enrichment.

(** ** Load: the graph and the write calls of the unit notebooks *)

(** Modelled from the spec: a node of the graph database, which is reached
    through the Neo4j Spark connector and has no code in the notebooks. Its
    identity for an upsert is its label and the values of the key fields. *)
Record TargetNode := {
  label : string;
  properties : gmap string Value
}.

(** Modelled from the spec: a relationship of the graph database; its
    identity for an upsert is [(type, sourceKey, targetKey)]. *)
Record TargetRelationship := {
  rel_type : string;
  sourceLabel : string;
  sourceKey : Value;
  targetLabel : string;
  targetKey : Value;
  rel_properties : gmap string Value
}.

(** Modelled from the spec: the content of the graph database. *)
Record Graph := {
  nodes : list TargetNode;
  relationships : list TargetRelationship
}.

(** Modelled from the spec: the counts a load returns, records submitted
    and records accepted. *)
Record LoadOutcome := {
  submitted : Z;
  accepted : Z
}.

(** Modelled from the spec: the values of the key fields of a record; there
    are none when a key field is missing or null, and such a record is
    excluded from the upsert. *)
Fixpoint key_values (keyFields : list string) (props : gmap string Value)
  : option (list Value) :=
  match keyFields with
  | [] => Some []
  | f :: fs =>
      match props !! f with
      | None | Some VNull => None
      | Some v =>
          match key_values fs props with
          | Some vs => Some (v :: vs)
          | None => None
          end
      end
  end.

(** Modelled from the spec: a node has the given label and key. *)
Definition node_matches (lbl : string) (keyFields : list string)
    (k : list Value) (n : TargetNode) : bool :=
  String.eqb (label n) lbl
  && bool_decide (key_values keyFields (properties n) = Some k).

(** Modelled from the spec: the keyed upsert of one node, "creates a node
    if its key is absent, otherwise updates it in place"; the flag tells
    whether the record was accepted. *)
Definition upsert_node (lbl : string) (keyFields : list string)
    (props : gmap string Value) (ns : list TargetNode)
  : list TargetNode * bool :=
  match key_values keyFields props with
  | None => (ns, false)
  | Some k =>
      if existsb (node_matches lbl keyFields k) ns then
        (map (fun n => if node_matches lbl keyFields k n
                       then {| label := label n;
                               properties := props ∪ properties n |}
                       else n) ns, true)
      else (ns ++ [ {| label := lbl; properties := props |} ], true)
  end.

(** Modelled from the spec: [write(label, keyFields, properties)] over a
    batch of records, in batch order. *)
Fixpoint write_nodes (lbl : string) (keyFields : list string)
    (records : list (gmap string Value)) (g : Graph) (out : LoadOutcome)
  : Graph * LoadOutcome :=
  match records with
  | [] => (g, out)
  | r :: rest =>
      let (ns, ok) := upsert_node lbl keyFields r (nodes g) in
      write_nodes lbl keyFields rest
        {| nodes := ns; relationships := relationships g |}
        {| submitted := submitted out + 1;
           accepted := if ok then accepted out + 1 else accepted out |}
  end.

(** Modelled from the spec: some node with the label carries the key value
    under the property. *)
Definition node_with_key (lbl prop : string) (v : Value) (n : TargetNode) : bool :=
  String.eqb (label n) lbl && bool_decide (properties n !! prop = Some v).

(** Modelled from the spec: a relationship has the given identity. *)
Definition rel_matches (ty : string) (sk tk : Value) (r : TargetRelationship) : bool :=
  String.eqb (rel_type r) ty
  && bool_decide (sourceKey r = sk) && bool_decide (targetKey r = tk).

(** Modelled from the spec: the keyed upsert of one relationship. The two
    end nodes are resolved by key among the nodes already loaded; a record
    whose source or target is not there is refused and the batch goes on.
    [skey] and [tkey] pair the record's column with the node's property. *)
Definition upsert_relationship (ty : string)
    (slabel : string) (skey : string * string)
    (tlabel : string) (tkey : string * string)
    (row : gmap string Value) (g : Graph)
  : list TargetRelationship * bool :=
  match row !! skey.1, row !! tkey.1 with
  | Some sk, Some tk =>
      if existsb (node_with_key slabel skey.2 sk) (nodes g)
         && existsb (node_with_key tlabel tkey.2 tk) (nodes g)
      then
        let props := delete skey.1 (delete tkey.1 row) in
        if existsb (rel_matches ty sk tk) (relationships g) then
          (map (fun r => if rel_matches ty sk tk r
                         then {| rel_type := rel_type r;
                                 sourceLabel := sourceLabel r;
                                 sourceKey := sourceKey r;
                                 targetLabel := targetLabel r;
                                 targetKey := targetKey r;
                                 rel_properties := props ∪ rel_properties r |}
                         else r) (relationships g), true)
        else
          (relationships g ++
             [ {| rel_type := ty; sourceLabel := slabel; sourceKey := sk;
                  targetLabel := tlabel; targetKey := tk;
                  rel_properties := props |} ], true)
      else (relationships g, false)
  | _, _ => (relationships g, false)
  end.

(** Modelled from the spec: [write(type, sourceLabel, sourceKey,
    targetLabel, targetKey, properties)] over a batch of records. *)
Fixpoint write_relationships (ty : string)
    (slabel : string) (skey : string * string)
    (tlabel : string) (tkey : string * string)
    (records : list (gmap string Value)) (g : Graph) (out : LoadOutcome)
  : Graph * LoadOutcome :=
  match records with
  | [] => (g, out)
  | r :: rest =>
      let (rs, ok) := upsert_relationship ty slabel skey tlabel tkey r g in
      write_relationships ty slabel skey tlabel tkey rest
        {| nodes := nodes g; relationships := rs |}
        {| submitted := submitted out + 1;
           accepted := if ok then accepted out + 1 else accepted out |}
  end.

Definition no_outcome : LoadOutcome := {| submitted := 0; accepted := 0 |}.

(** [01_patients_etl.py]: [patients_neo4j.write ... .mode("Overwrite")
    .option("labels", ":Patient").option("node.keys", "id,mrn").save()].
    The notebook makes this call whatever [INCREMENTAL_MODE] is. *)
Definition patients_neo4j_write (patients_neo4j : list (gmap string Value))
    (g : Graph) : Graph * LoadOutcome :=
  write_nodes "Patient" ["id"; "mrn"] patients_neo4j g no_outcome.

(** [02_medications_etl.py]: labels [":Medication"], node keys
    ["id,rxNormCode"]. *)
Definition medications_neo4j_write (medications_neo4j : list (gmap string Value))
    (g : Graph) : Graph * LoadOutcome :=
  write_nodes "Medication" ["id"; "rxNormCode"] medications_neo4j g no_outcome.

(** [03_patient_medication_relationships.py]: relationship ["PRESCRIBED"],
    source [":Patient"] matched on ["source.id:id"], target [":Medication"]
    matched on ["target.id:id"], both with save mode ["Match"]. *)
Definition prescriptions_neo4j_write (prescriptions_neo4j : list (gmap string Value))
    (g : Graph) : Graph * LoadOutcome :=
  write_relationships "PRESCRIBED" "Patient" ("source.id", "id")
    "Medication" ("target.id", "id") prescriptions_neo4j g no_outcome.

(** The nodes, and the relationships, that carry a given identity. *)
Definition count_nodes (lbl : string) (keyFields : list string)
    (k : list Value) (g : Graph) : nat :=
  length (List.filter (node_matches lbl keyFields k) (nodes g)).

Definition count_relationships (ty : string) (sk tk : Value) (g : Graph) : nat :=
  length (List.filter (rel_matches ty sk tk) (relationships g)).

(** Every property of the record is on the node, with the record's value. *)
Definition holds_values (props stored : gmap string Value) : Prop :=
  forall f v, props !! f = Some v -> stored !! f = Some v.

(** ** What a run printed *)

Definition starting_name (o : Output) : option string :=
  match o with out_starting n => Some n | _ => None end.

Definition stage_name_of (o : Output) : option string :=
  match o with out_stage n => Some n | _ => None end.

(** The notebooks handed to [dbutils.notebook.run], in the order of the
    calls, and the stages [run_stage] was called for. *)
Definition notebooks_started (out : list Output) : list string :=
  omap starting_name out.

Definition stages_started (out : list Output) : list string :=
  omap stage_name_of out.

Definition next_timestamp_of (o : Output) : option Z :=
  match o with out_next_timestamp t => Some t | _ => None end.

(** The timestamps printed as "next incremental run should use". *)
Definition next_timestamps (out : list Output) : list Z :=
  omap next_timestamp_of out.

(** The parts of what a run of the master notebook returns. *)
Definition output_of {World A} (r : World * list Output * A) : list Output := r.1.2.
Definition globals_of {World} (r : World * list Output * (Config * Metadata * Exit))
  : Config := r.2.1.1.
Definition metadata_of {World} (r : World * list Output * (Config * Metadata * Exit))
  : Metadata := r.2.1.2.
Definition exit_of {World} (r : World * list Output * (Config * Metadata * Exit))
  : Exit := r.2.2.

(** All recorded unit results, stage after stage. *)
Definition recorded_results (md : Metadata) : list NotebookResult :=
  concat (map stage_results (dict_values (detailed_results md))).

Definition with_parallel_execution (b : bool) (cfg : Config) : Config :=
  {| ETL_RUN_ID := ETL_RUN_ID cfg;
     INCREMENTAL_MODE := INCREMENTAL_MODE cfg;
     LAST_SUCCESSFUL_RUN := LAST_SUCCESSFUL_RUN cfg;
     NOTEBOOK_TIMEOUT_SECONDS := NOTEBOOK_TIMEOUT_SECONDS cfg;
     PARALLEL_EXECUTION := b |}.

(** ** Scripted collaborators, to run the notebooks on examples *)

(** A clock that advances by one at every reading. *)
Definition ticking_now (w : Z) : Z * Z := ((w + 1)%Z, w).

(** Child notebooks that take a minute; those whose path is listed end
    with an exception. *)
Definition scripted_notebook_run (failing : list string)
    (notebook_path : string) (timeout_seconds : Z)
    (arguments : gmap string string) (w : Z) : Z * (string + string) :=
  ((w + 60)%Z,
   if existsb (String.eqb notebook_path) failing
   then inr "notebook failed" else inl "done").

(** A stage of three units [A], [B], [C], and a later stage of one. *)
Definition unit_notebook (n : string) : Notebook :=
  {| path := ("/" ++ n)%string; name := n; timeout := 3600; parameters := ∅ |}.

Definition abc_stage : StageConfig :=
  {| description := "three units"; parallel := false;
     notebooks := [unit_notebook "A"; unit_notebook "B"; unit_notebook "C"] |}.

Definition later_stage : StageConfig :=
  {| description := "one unit"; parallel := false;
     notebooks := [unit_notebook "D"] |}.

(** The stage table with the validation notebook the source keeps in a
    comment switched on. *)
Definition pipeline_with_validation (cfg : Config) : list (string * StageConfig) :=
  take 2 (etl_pipeline cfg) ++
  [ ("stage_3_validation",
      {| description := "Data quality validation and gap detection";
         parallel := false;
         notebooks :=
           [ {| path := "/arthur-health/data_quality_validation";
                name := "data_quality"; timeout := 1800;
                parameters := ∅ |} ] |}) ].

(** An embedding service that counts the calls it receives and times out
    on every one of them. *)
Definition timing_out_post (url : string) (headers : list (string * string))
    (payload : Payload) (tmo : Z) (calls : nat) : nat * (Response + string) :=
  (S calls, inr "ReadTimeout").

(** An embedding service that answers every call with status 500. *)
Definition failing_post (url : string) (headers : list (string * string))
    (payload : Payload) (tmo : Z) (calls : nat) : nat * (Response + string) :=
  (S calls, inl {| status_code := 500; body := None |}).

(** Example records: a patient, the same patient with a new risk score, a
    medication, and a prescription of the one to the other. *)
Definition patient_record (risk : Z) : gmap string Value :=
  <["id" := VStr "P1"]> (<["mrn" := VStr "M-001"]> (<["riskScore" := VInt risk]> ∅)).

Definition medication_record : gmap string Value :=
  <["id" := VStr "RX9"]> (<["rxNormCode" := VStr "860975"]> ∅).

Definition prescription_record (dosage : string) : gmap string Value :=
  <["source.id" := VStr "P1"]>
    (<["target.id" := VStr "RX9"]> (<["rel.dosage" := VStr dosage]> ∅)).

Definition empty_graph : Graph := {| nodes := []; relationships := [] |}.

(** The graph after the two entity notebooks have loaded the example
    patient and medication. *)
Definition loaded_graph : Graph :=
  (medications_neo4j_write [medication_record]
     (patients_neo4j_write [patient_record 3] empty_graph).1).1.

(** Empty or whitespace-only input; a NULL field is empty too. *)
Definition blank (txt : option text) : Prop :=
  match txt with
  | None => True
  | Some t => Forall (fun c => is_space c = true) t
  end.

(** A vector of [dim] floats, all zero. *)
Definition all_zero_vector (dim : nat) (v : PyVal) : Prop :=
  exists l, v = PyList l /\ length l = dim /\ Forall (fun x => x = PyFloat 0%Qc) l.

(** [" \t\n"], and ["policy"]. *)
Definition whitespace_text : text := [32; 9; 10]%N.
Definition policy_text : text := [112; 111; 108; 105; 99; 121]%N.

(** Rows for the examples: one row per [last_modified] day, [created_at]
    NULL or old. *)
Definition row_modified (day : Z) : SourceRecord :=
  {| last_modified := Some day; created_at := None; other_columns := ∅ |}.

Definition old_row : SourceRecord :=
  {| last_modified := Some 20241231000000%Z;
     created_at := Some 20240101000000%Z;
     other_columns := ∅ |}.

(** The rows with [last_modified > w OR created_at > w]. *)
Definition newer_than (w : Z) (r : SourceRecord) : bool :=
  later_than w (last_modified r) || later_than w (created_at r).

(** ** The results summary of the master notebook *)

(** The lines of the "Stage Results" listing: one per stage, one per
    recorded notebook, and one more, with the error text, under a notebook
    that failed. *)
Inductive SummaryLine :=
| line_stage (ok : bool) (stage_name : string)
| line_notebook (ok : bool) (notebook_name : string) (dur : Z)
| line_error (err : option string).

(** The body of [for notebook_result in stage_data["results"]]. *)
Definition notebook_lines (notebook_result : NotebookResult) : list SummaryLine :=
  line_notebook (success notebook_result) (notebook notebook_result)
                (duration notebook_result)
  :: (if negb (success notebook_result)
      then [line_error (error (result notebook_result))] else []).

(** [for stage_name, stage_data in pipeline_results.items(): ...]. *)
Definition results_summary (pipeline_results : list (string * StageResult))
  : list SummaryLine :=
  flat_map (fun '(stage_name, stage_data) =>
              line_stage (stage_success stage_data) stage_name
              :: flat_map notebook_lines (stage_results stage_data))
           pipeline_results.

Definition is_error_line (l : SummaryLine) : bool :=
  match l with line_error _ => true | _ => false end.

Definition is_notebook_line (l : SummaryLine) : bool :=
  match l with line_notebook _ _ _ => true | _ => false end.

(** A result as [run_notebook_with_logging] builds it: a successful one has
    a result and no error, a failed one an error and no result. *)
Definition consistent_result (r : NotebookResult) : bool :=
  match success r, result_value (result r), error (result r) with
  | true, Some _, None => true
  | false, None, Some _ => true
  | _, _, _ => false
  end.

(** All the notebooks of a stage table, stage after stage. *)
Definition all_notebooks (pipeline : list (string * StageConfig)) : list string :=
  concat (map (fun s => map name (notebooks s.2)) pipeline).

(** ** More collaborators for examples *)

(** An embedding service wrapped so that the world counts the calls made. *)
Definition counting {World R}
    (post : string -> list (string * string) -> Payload -> Z -> World -> World * R)
    (url : string) (headers : list (string * string)) (payload : Payload)
    (tmo : Z) (wn : World * nat) : (World * nat) * R :=
  let (w', r) := post url headers payload tmo wn.1 in ((w', S wn.2), r).

(** The test of [generate_embedding] for going on to the service. *)
Definition non_blank (txt : option text) : bool :=
  match txt with
  | None => false
  | Some t => negb (is_empty t || is_empty (strip t))
  end.

(** The JSON document of a reply that carries the embedding [e]. *)
Definition embedding_document (e : PyVal) : PyVal :=
  PyDict [ ("object", PyStr "list");
           ("data", PyList [ PyDict [ ("index", PyInt 0); ("embedding", e) ] ]) ].

(** A service without state that answers with a vector of three numbers. *)
Definition short_vector : PyVal :=
  PyList [PyFloat 1%Qc; PyFloat 0%Qc; PyFloat 1%Qc].

Definition short_vector_reply (payload : Payload) : Response + string :=
  inl {| status_code := 200; body := Some (embedding_document short_vector) |}.

Definition stateless_post (reply : Payload -> Response + string)
    (url : string) (headers : list (string * string)) (payload : Payload)
    (tmo : Z) (w : unit) : unit * (Response + string) :=
  (w, reply payload).

(** 8000 spaces and then one more character. *)
Definition padded_text (c : N) : text := replicate 8000 32%N ++ [c].

(** ** An absent timestamp, and what the child notebooks returned *)

(** A quote character in a constant pasted into the query text. *)
Definition has_quote (s : string) : bool :=
  existsb (Ascii.eqb "'"%char) (list_ascii_of_string s).

(** [f"{LAST_RUN_TIMESTAMP}"]: the constant as the f-string pastes it; an
    absent one, Python's [None], is pasted as the text [None]. *)
Definition render_timestamp (LAST_RUN_TIMESTAMP : option string) : string :=
  match LAST_RUN_TIMESTAMP with
  | Some s => s
  | None => "None"
  end.

(** The stage [abc_stage] with the unit [A] alone. *)
Definition a_stage : StageConfig :=
  {| description := description abc_stage; parallel := false;
     notebooks := [unit_notebook "A"] |}.

(** [dbutils.notebook.run] wrapped so that the world keeps, in order, what
    every call returned or raised; the clock leaves that list alone. *)
Definition recording {World}
    (run : string -> Z -> gmap string string -> World -> World * (string + string))
    (notebook_path : string) (timeout_seconds : Z)
    (arguments : gmap string string) (wl : World * list (string + string))
  : (World * list (string + string)) * (string + string) :=
  let (w', x) := run notebook_path timeout_seconds arguments wl.1 in
  ((w', wl.2 ++ [x]), x).

Definition lift_now {World L} (now : World -> World * Z) (wl : World * L)
  : (World * L) * Z :=
  let (w', t) := now wl.1 in ((w', wl.2), t).

(** The success flag and the result dict that answer a call's outcome. *)
Definition record_of (x : string + string) : bool * RunResult :=
  match x with
  | inl v => (true, {| result_value := Some v; error := None |})
  | inr e => (false, {| result_value := None; error := Some e |})
  end.

(** * Properties *)

(** ** The scheduler *)

Section SchedulerFacts.

Context {World : Type}.
Variable dbutils_notebook_run :
  string -> Z -> gmap string string -> World -> World * (string + string).
Variable now : World -> World * Z.

Local Abbreviation run_nb := (run_notebook_with_logging dbutils_notebook_run now).
Local Abbreviation par_loop := (parallel_branch dbutils_notebook_run now).
Local Abbreviation seq_loop := (sequential_branch dbutils_notebook_run now).
Local Abbreviation stage := (run_stage dbutils_notebook_run now).
Local Abbreviation loop := (pipeline_loop dbutils_notebook_run now).
Local Abbreviation master := (master_run dbutils_notebook_run now).

Local Abbreviation critical := "stage_1_entities".

Lemma notebooks_started_app (o1 o2 : list Output) :
  notebooks_started (o1 ++ o2) = notebooks_started o1 ++ notebooks_started o2.
Proof. apply omap_app. Qed.

Lemma stages_started_app (o1 o2 : list Output) :
  stages_started (o1 ++ o2) = stages_started o1 ++ stages_started o2.
Proof. apply omap_app. Qed.

(** One call of [run_notebook_with_logging] starts exactly its notebook,
    and its flag tells how [dbutils.notebook.run] ended. *)
Lemma run_notebook_started p n a t w w' o ok r d :
  run_nb p n a t w = (w', o, (ok, r, d)) ->
  notebooks_started o = [n] /\ stages_started o = [].
Proof.
  unfold run_notebook_with_logging, bind, datetime_now, notebook_run, call, print, ret.
  destruct (now w) as [w0 t0].
  destruct (dbutils_notebook_run p t a w0) as [w1 [v | e]];
    destruct (now w1) as [w2 t1]; intros [= <- <- <- <- <-]; done.
Qed.

Lemma run_notebook_outcome p n a t w :
  exists w0 t0 w1 x w2 t1,
    now w = (w0, t0) /\ dbutils_notebook_run p t a w0 = (w1, x) /\
    now w1 = (w2, t1) /\
    run_nb p n a t w =
      (w2,
       [out_starting n;
        match x with inl _ => out_completed n | inr e => out_failed n e end],
       (match x with inl _ => true | inr _ => false end,
        match x with
        | inl v => {| result_value := Some v; error := None |}
        | inr e => {| result_value := None; error := Some e |}
        end,
        (t1 - t0)%Z)).
Proof.
  unfold run_notebook_with_logging, bind, datetime_now, notebook_run, call, print, ret.
  destruct (now w) as [w0 t0] eqn:E0.
  destruct (dbutils_notebook_run p t a w0) as [w1 x] eqn:E1.
  destruct (now w1) as [w2 t1] eqn:E2.
  exists w0, t0, w1, x, w2, t1. split_and!; [done .. |].
  destruct x; rewrite ?E2; reflexivity.
Qed.

(** The two loops of [run_stage] are the same loop. *)
Lemma parallel_branch_sequential stage_name nbs :
  forall results all_success w,
    par_loop stage_name nbs results all_success w
    = seq_loop stage_name nbs results all_success w.
Proof.
  induction nbs as [| nb rest IH]; intros results all_success w; simpl.
  - reflexivity.
  - unfold bind.
    destruct (run_nb (path nb) (name nb) (parameters nb) (timeout nb) w)
      as [[w1 o1] [[ok r] d]].
    destruct ok; simpl.
    + rewrite IH. reflexivity.
    + destruct (String.eqb stage_name critical); [reflexivity |].
      rewrite IH. reflexivity.
Qed.

(** What the loop of a stage leaves behind. *)
Lemma sequential_branch_spec stage_name nbs :
  forall results all_success w w' out ok res,
    seq_loop stage_name nbs results all_success w = (w', out, (ok, res)) ->
    exists new,
      res = results ++ new
      /\ ok = all_success && forallb success new
      /\ map notebook new = map name (take (length new) nbs)
      /\ notebooks_started out = map notebook new
      /\ stages_started out = []
      /\ (String.eqb stage_name critical = false -> length new = length nbs)
      /\ (String.eqb stage_name critical = true ->
          forall i r, new !! i = Some r -> success r = false -> length new = S i).
Proof.
  induction nbs as [| nb rest IH]; intros results all_success w w' out ok res; simpl.
  - unfold ret. intros [= <- <- <- <-]. exists [].
    rewrite app_nil_r, andb_true_r. repeat split; try done.
  - unfold bind.
    destruct (run_nb (path nb) (name nb) (parameters nb) (timeout nb) w)
      as [[w1 o1] [[ok1 r1] d1]] eqn:E1.
    apply run_notebook_started in E1 as [Hs1 Hg1].
    destruct ok1; simpl.
    + destruct (seq_loop stage_name rest _ all_success w1)
        as [[w2 o2] [ok2 res2]] eqn:E2.
      intros [= <- <- <- <-].
      apply IH in E2 as (new & -> & -> & Hn & Hst & Hsg & Hnc & Hc).
      eexists (_ :: new). rewrite <- app_assoc. simpl.
      repeat split; try done.
      * by rewrite Hn.
      * by rewrite notebooks_started_app, Hs1, Hst.
      * by rewrite stages_started_app, Hg1, Hsg.
      * intros H. by rewrite Hnc.
      * intros H [| i] r; simpl; [by intros [= <-] |].
        intros Hi Hr. f_equal. by eapply Hc.
    + destruct (String.eqb stage_name critical) eqn:Ecrit.
      * unfold print, ret. intros [= <- <- <- <-].
        eexists [_]. simpl. split_and!; try done.
        -- by destruct all_success.
        -- by rewrite notebooks_started_app, Hs1.
        -- by rewrite stages_started_app, Hg1.
        -- intros _ [| i] r; simpl; [done |]. by intros ?.
      * destruct (seq_loop stage_name rest _ false w1)
          as [[w2 o2] [ok2 res2]] eqn:E2.
        intros [= <- <- <- <-].
        apply IH in E2 as (new & -> & -> & Hn & Hst & Hsg & Hnc & Hc).
        eexists (_ :: new). rewrite <- app_assoc. simpl.
        split_and!; try done.
        -- by destruct all_success.
        -- by rewrite Hn.
        -- by rewrite notebooks_started_app, Hs1, Hst.
        -- by rewrite stages_started_app, Hg1, Hsg.
        -- intros H. by rewrite Hnc.
Qed.

(** No timestamp for the next run is printed while the stages run. *)
Lemma run_notebook_no_timestamp p n a t w w' o v :
  run_nb p n a t w = (w', o, v) -> next_timestamps o = [].
Proof.
  destruct (run_notebook_outcome p n a t w)
    as (w0 & t0 & w1 & x & w2 & t1 & _ & _ & _ & ->).
  intros [= <- <- <-]. by destruct x.
Qed.

Lemma sequential_branch_no_timestamp stage_name nbs :
  forall results all_success w w' out v,
    seq_loop stage_name nbs results all_success w = (w', out, v) ->
    next_timestamps out = [].
Proof.
  induction nbs as [| nb rest IH]; intros results all_success w w' out v; simpl.
  - by intros [= <- <- <-].
  - unfold bind.
    destruct (run_nb (path nb) (name nb) (parameters nb) (timeout nb) w)
      as [[w1 o1] [[ok1 r1] d1]] eqn:E1.
    apply run_notebook_no_timestamp in E1.
    assert (forall b, (let '(w2, o2, x) := seq_loop stage_name rest
                (results ++ [{| notebook := name nb; success := ok1;
                                duration := d1; result := r1 |}]) b w1
              in (w2, o1 ++ o2, x)) = (w', out, v) -> next_timestamps out = [])
      as Hrec.
    { intros b.
      destruct (seq_loop stage_name rest _ b w1) as [[w2 o2] x] eqn:E2.
      intros [= <- <- <-]. apply IH in E2.
      unfold next_timestamps in *. by rewrite omap_app, E1, E2. }
    destruct ok1; simpl; [apply Hrec |].
    destruct (String.eqb stage_name critical); [| apply Hrec].
    unfold print, ret. intros [= <- <- <-].
    unfold next_timestamps in *. by rewrite omap_app, E1.
Qed.

Lemma run_stage_no_timestamp cfg stage_name sc w w' out v :
  stage cfg stage_name sc w = (w', out, v) -> next_timestamps out = [].
Proof.
  unfold run_stage, bind, print.
  destruct (parallel sc && PARALLEL_EXECUTION cfg);
    rewrite ?parallel_branch_sequential;
    destruct (seq_loop stage_name (notebooks sc) [] true w)
      as [[w2 o2] x] eqn:E;
    intros [= <- <- <-]; apply sequential_branch_no_timestamp in E;
    simpl; exact E.
Qed.

Lemma run_stage_spec cfg stage_name sc w w' out ok res :
  stage cfg stage_name sc w = (w', out, (ok, res)) ->
  ok = forallb success res
  /\ map notebook res = map name (take (length res) (notebooks sc))
  /\ notebooks_started out = map notebook res
  /\ stages_started out = [stage_name]
  /\ (String.eqb stage_name critical = false -> length res = length (notebooks sc))
  /\ (String.eqb stage_name critical = true ->
      forall i r, res !! i = Some r -> success r = false -> length res = S i).
Proof.
  unfold run_stage, bind, print.
  destruct (parallel sc && PARALLEL_EXECUTION cfg).
  - rewrite parallel_branch_sequential.
    destruct (seq_loop stage_name (notebooks sc) [] true w)
      as [[w2 o2] [ok2 res2]] eqn:E.
    intros [= <- <- <- <-].
    apply sequential_branch_spec in E as (new & -> & -> & Hn & Hst & Hsg & Hnc & Hc).
    simpl. rewrite Hsg. done.
  - destruct (seq_loop stage_name (notebooks sc) [] true w)
      as [[w2 o2] [ok2 res2]] eqn:E.
    intros [= <- <- <- <-].
    apply sequential_branch_spec in E as (new & -> & -> & Hn & Hst & Hsg & Hnc & Hc).
    simpl. rewrite Hsg. done.
Qed.

Lemma forallb_success_failed (res : list NotebookResult) i r :
  res !! i = Some r -> success r = false -> forallb success res = false.
Proof.
  revert i. induction res as [| x res IH]; intros [| i]; simpl; try done.
  - intros [= ->] ->. done.
  - intros Hi Hr. rewrite (IH i Hi Hr). apply andb_false_r.
Qed.

(** The stage loop stops at the first stage that fails: the stages after it
    are not looked at. *)
Lemma pipeline_loop_stops cfg before stage_name sc after :
  forall pr w w1 o1 pr1 w2 o2 res,
    loop cfg before pr w = (w1, o1, (true, pr1)) ->
    stage cfg stage_name sc w1 = (w2, o2, (false, res)) ->
    loop cfg (before ++ (stage_name, sc) :: after) pr w
    = (w2, o1 ++ o2 ++ [out_stage_failed stage_name],
       (false,
        dict_set stage_name {| stage_success := false; stage_results := res |} pr1)).
Proof.
  induction before as [| [n0 sc0] before IH]; intros pr w w1 o1 pr1 w2 o2 res; simpl.
  - unfold ret, bind, print. intros [= <- <- <-] ->. simpl.
    by rewrite ?app_nil_r.
  - unfold bind.
    destruct (stage cfg n0 sc0 w) as [[w0 o0] [ok0 res0]].
    destruct ok0; simpl.
    + destruct (loop cfg before _ w0) as [[wa oa] [oka pra]] eqn:Ea.
      intros [= <- <- -> <-] Hst.
      rewrite (IH _ _ _ _ _ _ _ _ Ea Hst). by rewrite <- app_assoc.
    + unfold print, ret. intros [=].
Qed.

(** A stage that fails ends the run: nothing is printed or done after it
    but the failure messages, and the notebook ends with the exception. *)
Lemma failed_stage_ends_run cfg before stage_name sc after
    w w0 t0 w1 o1 pr1 w2 o2 res :
  now w = (w0, t0) ->
  loop cfg before [] w0 = (w1, o1, (true, pr1)) ->
  stage cfg stage_name sc w1 = (w2, o2, (false, res)) ->
  exists w3 t1,
    now w2 = (w3, t1) /\
    master cfg (before ++ (stage_name, sc) :: after) w
    = (w3, o1 ++ o2 ++ [out_stage_failed stage_name; out_pipeline_failed],
       (cfg,
        build_metadata cfg t0 t1 false
          (dict_set stage_name
             {| stage_success := false; stage_results := res |} pr1),
        exit_raised)).
Proof.
  intros Hnow Hloop Hstage.
  destruct (now w2) as [w3 t1] eqn:E3. exists w3, t1. split; [done |].
  unfold master_run, bind, datetime_now, call. rewrite Hnow.
  rewrite (pipeline_loop_stops _ _ _ _ _ _ _ _ _ _ _ _ _ Hloop Hstage).
  rewrite E3. unfold final_status, bind, print, ret. simpl.
  by rewrite <- !app_assoc.
Qed.

Lemma py_sum_from (l : list Z) (a : Z) :
  fold_left Z.add l a = (a + py_sum l)%Z.
Proof.
  unfold py_sum. revert a. induction l as [| x l IH]; intros a; simpl.
  - lia.
  - rewrite (IH (a + x)%Z), (IH (0 + x)%Z). lia.
Qed.

Lemma py_sum_cons (x : Z) (l : list Z) : py_sum (x :: l) = (x + py_sum l)%Z.
Proof. unfold py_sum at 1. simpl. apply py_sum_from. Qed.

Lemma py_sum_ones {A} (l : list A) :
  py_sum (map (fun _ => 1%Z) l) = Z.of_nat (length l).
Proof.
  induction l as [| x l IH]; [done |].
  change (map (fun _ => 1%Z) (x :: l)) with (1%Z :: map (fun _ => 1%Z) l).
  rewrite py_sum_cons, IH. simpl length. lia.
Qed.

Lemma filter_partition_length {A} (f : A -> bool) (l : list A) :
  (length (List.filter f l) + length (List.filter (fun x => negb (f x)) l)
   = length l)%nat.
Proof.
  induction l as [| x l IH]; [done |]. simpl.
  destruct (f x); simpl; lia.
Qed.

(** The three notebook counts of [etl_metadata], over the stage records. *)
Lemma notebook_counts_add_up (vals : list StageResult) :
  (py_sum (map (fun s =>
       py_sum (map (fun _ => 1%Z)
                   (List.filter (fun nb => success nb) (stage_results s)))) vals)
   + py_sum (map (fun s =>
       py_sum (map (fun _ => 1%Z)
                   (List.filter (fun nb => negb (success nb)) (stage_results s)))) vals)
   = py_sum (map (fun s => Z.of_nat (length (stage_results s))) vals))%Z.
Proof.
  induction vals as [| s vals IH]; [done |].
  cbn [map]. rewrite !py_sum_cons, !py_sum_ones.
  pose proof (filter_partition_length (fun nb => success nb) (stage_results s)).
  lia.
Qed.

Lemma notebooks_failed_zero (vals : list StageResult) :
  (0 <= py_sum (map (fun s =>
       py_sum (map (fun _ => 1%Z)
                   (List.filter (fun nb => negb (success nb)) (stage_results s)))) vals))%Z
  /\ (py_sum (map (fun s =>
       py_sum (map (fun _ => 1%Z)
                   (List.filter (fun nb => negb (success nb)) (stage_results s)))) vals)
      = 0%Z
      <-> Forall (fun r => success r = true) (concat (map stage_results vals))).
Proof.
  induction vals as [| s vals [IH0 IH]]; [by split; [| split] |].
  cbn [map concat]. rewrite py_sum_cons, py_sum_ones, Forall_app.
  assert (length (List.filter (fun nb => negb (success nb)) (stage_results s)) = 0%nat
          <-> Forall (fun r => success r = true) (stage_results s)) as Hs.
  { induction (stage_results s) as [| r rs IHr]; simpl.
    - split; [constructor | done].
    - destruct (success r) eqn:E; simpl.
      + rewrite IHr. split; [by constructor | by inversion 1].
      + split; [done |]. inversion 1; congruence. }
  split; [lia |]. rewrite <- IH, <- Hs. lia.
Qed.

Lemma dict_set_values_Forall {V} (P : V -> Prop) k v (d : list (string * V)) :
  P v -> Forall P (dict_values d) -> Forall P (dict_values (dict_set k v d)).
Proof.
  intros Hv. induction d as [| [k' v'] d IH]; simpl.
  - intros _. by constructor.
  - inversion 1; subst. destruct (String.eqb k' k); simpl; constructor; auto.
Qed.

Lemma dict_set_values_In {V} k (v : V) (d : list (string * V)) :
  In v (dict_values (dict_set k v d)).
Proof.
  induction d as [| [k' v'] d IH]; simpl; [by left |].
  destruct (String.eqb k' k); simpl; auto.
Qed.

Lemma forallb_success_Forall (res : list NotebookResult) :
  forallb success res = true <-> Forall (fun r => success r = true) res.
Proof.
  induction res as [| r res IH]; simpl.
  - split; [constructor | done].
  - rewrite andb_true_iff, IH. split; [intros []; by constructor | by inversion 1].
Qed.

Lemma Forall_recorded (P : NotebookResult -> Prop) (vals : list StageResult) :
  Forall P (concat (map stage_results vals))
  <-> Forall (fun s => Forall P (stage_results s)) vals.
Proof.
  induction vals as [| s vals IH]; simpl.
  - split; constructor.
  - rewrite Forall_app, IH. split; [intros []; by constructor | by inversion 1].
Qed.

(** When the stage loop ends with success every recorded unit succeeded;
    when it ends with failure a failed unit is on record. *)
Lemma pipeline_loop_status cfg stages :
  forall pr w w' out ok pr',
    loop cfg stages pr w = (w', out, (ok, pr')) ->
    Forall (fun r => success r = true) (concat (map stage_results (dict_values pr))) ->
    if ok
    then Forall (fun r => success r = true)
           (concat (map stage_results (dict_values pr')))
    else ~ Forall (fun r => success r = true)
           (concat (map stage_results (dict_values pr'))).
Proof.
  induction stages as [| [n sc] stages IH]; intros pr w w' out ok pr'; simpl.
  - by intros [= <- <- <- <-].
  - unfold bind.
    destruct (stage cfg n sc w) as [[w1 o1] [ok1 res1]] eqn:E1.
    apply run_stage_spec in E1 as (Hok & _).
    destruct ok1; simpl.
    + destruct (loop cfg stages _ w1) as [[w2 o2] [ok2 pr2]] eqn:E2.
      intros [= <- <- <- <-] Hpr. apply (IH _ _ _ _ _ _ E2).
      apply Forall_recorded, dict_set_values_Forall.
      * simpl. by apply forallb_success_Forall.
      * by apply Forall_recorded.
    + unfold print, ret. intros [= <- <- <- <-] _ Hall.
      apply Forall_recorded in Hall.
      rewrite List.Forall_forall in Hall.
      specialize (Hall _ (dict_set_values_In n
        {| stage_success := false; stage_results := res1 |} pr)).
      simpl in Hall. apply forallb_success_Forall in Hall. congruence.
Qed.

Lemma pipeline_loop_no_timestamp cfg stages :
  forall pr w w' out v,
    loop cfg stages pr w = (w', out, v) -> next_timestamps out = [].
Proof.
  induction stages as [| [n sc] stages IH]; intros pr w w' out v; simpl.
  - by intros [= <- <- <-].
  - unfold bind.
    destruct (stage cfg n sc w) as [[w1 o1] [ok1 res1]] eqn:E1.
    apply run_stage_no_timestamp in E1.
    destruct ok1; simpl.
    + destruct (loop cfg stages _ w1) as [[w2 o2] x] eqn:E2.
      intros [= <- <- <-]. apply IH in E2.
      unfold next_timestamps in *. by rewrite omap_app, E1, E2.
    + unfold print, ret. intros [= <- <- <-].
      unfold next_timestamps in *. by rewrite omap_app, E1.
Qed.

(** What a run of the master notebook returns, in terms of its stage loop. *)
Lemma master_run_unfold cfg pipeline w :
  exists w0 t0 w1 o1 ok pr w2 t1,
    now w = (w0, t0)
    /\ loop cfg pipeline [] w0 = (w1, o1, (ok, pr))
    /\ now w1 = (w2, t1)
    /\ master cfg pipeline w
       = (w2,
          o1 ++ (if ok then [out_next_timestamp t1] else [out_pipeline_failed]),
          (cfg, build_metadata cfg t0 t1 ok pr,
           if ok
           then exit_json "success"
                  (notebooks_succeeded (build_metadata cfg t0 t1 ok pr))
                  (notebooks_failed (build_metadata cfg t0 t1 ok pr))
           else exit_raised)).
Proof.
  unfold master_run, bind, datetime_now, call.
  destruct (now w) as [w0 t0] eqn:E0.
  destruct (loop cfg pipeline [] w0) as [[w1 o1] [ok pr]] eqn:E1.
  destruct (now w1) as [w2 t1] eqn:E2.
  exists w0, t0, w1, o1, ok, pr, w2, t1. split_and!; [done .. |].
  unfold final_status, bind, print, ret. by destruct ok.
Qed.

(** C10. For every run of the master notebook, the metadata it builds
    satisfies [notebooks_succeeded + notebooks_failed = notebooks_executed],
    its status is ["success"] exactly when every recorded unit result has
    [success = True], and exactly when [notebooks_failed] is zero. *)
Theorem run_metadata_consistent cfg pipeline w :
  let md := metadata_of (master cfg pipeline w) in
  (notebooks_succeeded md + notebooks_failed md = notebooks_executed md)%Z
  /\ (status md = "success"
      <-> Forall (fun r => success r = true) (recorded_results md))
  /\ (status md = "success" <-> notebooks_failed md = 0%Z).
Proof.
  destruct (master_run_unfold cfg pipeline w)
    as (w0 & t0 & w1 & o1 & ok & pr & w2 & t1 & _ & Hloop & _ & ->).
  unfold metadata_of, recorded_results. simpl.
  apply pipeline_loop_status in Hloop; [| constructor].
  pose proof (notebooks_failed_zero (dict_values pr)) as [_ Hzero].
  split_and!.
  - apply notebook_counts_add_up.
  - destruct ok; simpl; [done |]. split; [done | by intros ?].
  - rewrite Hzero. destruct ok; simpl; [done |]. split; [done | by intros ?].
Qed.

(** C6. The master notebook never writes the watermark
    [LAST_SUCCESSFUL_RUN]: after every run, and so after a failed one, it has
    the value it had before. All the notebook does about advancing it is to
    print the timestamp the next incremental run should use, and it prints
    it exactly when the run's status is ["success"]. With the watermark
    unchanged, the parameters handed to the units and the query of each
    extraction are those of the run before. *)
Theorem watermark_unchanged_by_run cfg pipeline w :
  let run := master cfg pipeline w in
  LAST_SUCCESSFUL_RUN (globals_of run) = LAST_SUCCESSFUL_RUN cfg
  /\ next_timestamps (output_of run)
     = (if String.eqb (status (metadata_of run)) "success"
        then [end_time (metadata_of run)] else [])
  /\ (status (metadata_of run) = "failed"
      \/ status (metadata_of run) = "success")
  /\ etl_pipeline (globals_of run) = etl_pipeline cfg
  /\ (forall mode,
        patients_sql_query mode (LAST_SUCCESSFUL_RUN (globals_of run))
        = patients_sql_query mode (LAST_SUCCESSFUL_RUN cfg)
        /\ medications_sql_query mode (LAST_SUCCESSFUL_RUN (globals_of run))
          = medications_sql_query mode (LAST_SUCCESSFUL_RUN cfg)
        /\ prescriptions_sql_query mode (LAST_SUCCESSFUL_RUN (globals_of run))
          = prescriptions_sql_query mode (LAST_SUCCESSFUL_RUN cfg)).
Proof.
  destruct (master_run_unfold cfg pipeline w)
    as (w0 & t0 & w1 & o1 & ok & pr & w2 & t1 & _ & Hloop & _ & ->).
  unfold globals_of, output_of, metadata_of. simpl.
  apply pipeline_loop_no_timestamp in Hloop.
  split_and!; try done.
  - unfold next_timestamps in *. rewrite omap_app, Hloop. by destruct ok.
  - destruct ok; auto.
Qed.

(** C9. The branch of [run_stage] taken when the stage's [parallel] flag
    and [PARALLEL_EXECUTION] are both true runs the very loop of the
    sequential branch: from every world, for every stage and every behaviour
    of the child notebooks, the two loops return the same world, output,
    success flag and results; so switching [PARALLEL_EXECUTION] on or off
    changes neither the [(success, results)] that [run_stage] returns, nor
    the world it leaves, nor the order in which the notebooks are started. *)
Theorem parallel_flag_has_no_effect cfg stage_name sc w :
  (forall results all_success w0,
     par_loop stage_name (notebooks sc) results all_success w0
     = seq_loop stage_name (notebooks sc) results all_success w0)
  /\ (stage (with_parallel_execution true cfg) stage_name sc w).2
     = (stage (with_parallel_execution false cfg) stage_name sc w).2
  /\ (stage (with_parallel_execution true cfg) stage_name sc w).1.1
     = (stage (with_parallel_execution false cfg) stage_name sc w).1.1
  /\ notebooks_started
       (output_of (stage (with_parallel_execution true cfg) stage_name sc w))
     = notebooks_started
         (output_of (stage (with_parallel_execution false cfg) stage_name sc w)).
Proof.
  split; [intros; apply parallel_branch_sequential |].
  unfold run_stage, output_of. simpl PARALLEL_EXECUTION.
  rewrite andb_false_r.
  destruct (parallel sc); simpl; [| done].
  unfold bind, print. rewrite parallel_branch_sequential.
  by destruct (seq_loop stage_name (notebooks sc) [] true w) as [[w2 o2] [ok2 res2]].
Qed.

(** C2, as the code has it. In the critical stage (the one named
    [stage_1_entities]), when the unit at position [i] fails, the stage's
    results are exactly those of the first [i + 1] units and only these
    units were started: the units after the failing one are never executed,
    and nothing is recorded for them. The run then ends failed: the failure messages are the
    last thing printed, no stage after the critical one is started, the
    status is ["failed"] and the notebook ends with the exception. *)
Theorem critical_stage_fail_fast cfg before sc after
    w w0 t0 w1 o1 pr1 w2 o2 ok res i r :
  now w = (w0, t0) ->
  loop cfg before [] w0 = (w1, o1, (true, pr1)) ->
  stage cfg critical sc w1 = (w2, o2, (ok, res)) ->
  res !! i = Some r ->
  success r = false ->
  map notebook res = map name (take (S i) (notebooks sc))
  /\ notebooks_started o2 = map name (take (S i) (notebooks sc))
  /\ exists w3 t1 md,
       now w2 = (w3, t1)
       /\ master cfg (before ++ (critical, sc) :: after) w
          = (w3, o1 ++ o2 ++ [out_stage_failed critical; out_pipeline_failed],
             (cfg, md, exit_raised))
       /\ status md = "failed"
       /\ detailed_results md
          = dict_set critical {| stage_success := false; stage_results := res |} pr1.
Proof.
  intros Hnow Hloop Hstage Hi Hr.
  pose proof (run_stage_spec _ _ _ _ _ _ _ _ Hstage)
    as (Hok & Hn & Hst & _ & _ & Hc).
  rewrite (forallb_success_failed _ _ _ Hi Hr) in Hok. subst ok.
  specialize (Hc eq_refl i r Hi Hr). rewrite Hc in Hn.
  split_and!; [done | by rewrite Hst |].
  destruct (failed_stage_ends_run cfg before critical sc after
              _ _ _ _ _ _ _ _ _ Hnow Hloop Hstage) as (w3 & t1 & E3 & Em).
  by exists w3, t1, (build_metadata cfg t0 t1 false
    (dict_set critical {| stage_success := false; stage_results := res |} pr1)).
Qed.

(** C1, as the code has it. When a unit of a non-critical stage fails, the
    other units of that stage are still run, each with a result; but no
    later stage is started: the stage loop stops at the first stage that
    failed, whichever it is. The run ends failed, one failed stage being
    enough. *)
Theorem noncritical_failure_stops_pipeline cfg before stage_name sc after
    w w0 t0 w1 o1 pr1 w2 o2 ok res i r :
  String.eqb stage_name critical = false ->
  now w = (w0, t0) ->
  loop cfg before [] w0 = (w1, o1, (true, pr1)) ->
  stage cfg stage_name sc w1 = (w2, o2, (ok, res)) ->
  res !! i = Some r ->
  success r = false ->
  map notebook res = map name (notebooks sc)
  /\ notebooks_started o2 = map name (notebooks sc)
  /\ exists w3 t1 md,
       now w2 = (w3, t1)
       /\ master cfg (before ++ (stage_name, sc) :: after) w
          = (w3, o1 ++ o2 ++ [out_stage_failed stage_name; out_pipeline_failed],
             (cfg, md, exit_raised))
       /\ status md = "failed"
       /\ detailed_results md
          = dict_set stage_name
              {| stage_success := false; stage_results := res |} pr1.
Proof.
  intros Hname Hnow Hloop Hstage Hi Hr.
  pose proof (run_stage_spec _ _ _ _ _ _ _ _ Hstage)
    as (Hok & Hn & Hst & _ & Hnc & _).
  rewrite (forallb_success_failed _ _ _ Hi Hr) in Hok. subst ok.
  specialize (Hnc Hname). rewrite Hnc, firstn_all in Hn.
  split_and!; [done | by rewrite Hst |].
  destruct (failed_stage_ends_run cfg before stage_name sc after
              _ _ _ _ _ _ _ _ _ Hnow Hloop Hstage) as (w3 & t1 & E3 & Em).
  by exists w3, t1, (build_metadata cfg t0 t1 false
    (dict_set stage_name {| stage_success := false; stage_results := res |} pr1)).
Qed.

End SchedulerFacts.

(** ** Extraction *)

Section WarehouseFacts.

Variable cast_datetime : string -> option Z.

Local Abbreviation query := (run_query cast_datetime).

Lemma incremental_where_compiles ts w :
  cast_datetime ts = Some w ->
  exists f, compile_predicate cast_datetime (incremental_where ts) = Some f
            /\ forall r, is_true (f r) = newer_than w r.
Proof.
  intros Hts. unfold incremental_where. simpl. rewrite Hts.
  eexists. split; [reflexivity |].
  intros r. unfold newer_than. simpl.
  destruct (last_modified r) as [lm |], (created_at r) as [ca |]; simpl;
    repeat case_match; done.
Qed.

Lemma filter_ext_bool {A} (f g : A -> bool) (l : list A) :
  (forall x, f x = g x) -> List.filter f l = List.filter g l.
Proof.
  intros H. induction l as [| x l IH]; [done |]. simpl. by rewrite H, IH.
Qed.

Lemma filter_all_iff {A} (f : A -> bool) (l : list A) :
  List.filter f l = l <-> Forall (fun x => f x = true) l.
Proof.
  induction l as [| x l IH]; simpl.
  - split; [constructor | done].
  - destruct (f x) eqn:E.
    + split.
      * intros [= H]. constructor; [done | by apply IH].
      * inversion 1; subst. f_equal. by apply IH.
    + split.
      * intros H. exfalso.
        assert (length (List.filter f l) <= length l)%nat
          by apply List.filter_length_le.
        rewrite H in H0. simpl in H0. lia.
      * inversion 1; congruence.
Qed.

(** The incremental query of any of the three notebooks, over any table. *)
Lemma incremental_query_rows (q : SqlQuery) ts w table :
  where_clause q = Some (incremental_where ts) ->
  cast_datetime ts = Some w ->
  query q table = Some (List.filter (newer_than w) table).
Proof.
  intros Hq Hts. unfold run_query. rewrite Hq.
  destruct (incremental_where_compiles ts w Hts) as (f & -> & Hf).
  f_equal. by apply filter_ext_bool.
Qed.

(** C3. For every watermark the warehouse reads as a datetime [w], the
    incremental query of each unit notebook returns exactly the rows of its
    table with [last_modified > w OR created_at > w] (a NULL column is not
    later than anything), in table order; the full-mode query returns all
    rows of the table, whatever the watermark is. *)
Theorem extraction_selects ts table :
  (forall w, cast_datetime ts = Some w ->
     query (patients_sql_query true ts) table
       = Some (List.filter (newer_than w) table)
     /\ query (medications_sql_query true ts) table
       = Some (List.filter (newer_than w) table)
     /\ query (prescriptions_sql_query true ts) table
       = Some (List.filter (newer_than w) table))
  /\ query (patients_sql_query false ts) table = Some table
  /\ query (medications_sql_query false ts) table = Some table
  /\ query (prescriptions_sql_query false ts) table = Some table.
Proof.
  split; [| done].
  intros w Hts. split_and!; by apply (incremental_query_rows _ ts).
Qed.

Lemma incremental_equals_full_iff (q qf : SqlQuery) ts w table :
  where_clause q = Some (incremental_where ts) ->
  where_clause qf = None ->
  cast_datetime ts = Some w ->
  query q table = query qf table
  <-> Forall (fun r => newer_than w r = true) table.
Proof.
  intros Hq Hqf Hts.
  rewrite (incremental_query_rows q ts w table Hq Hts).
  unfold run_query at 1. rewrite Hqf.
  rewrite <- filter_all_iff. split; [by intros [=] | by intros ->].
Qed.

Lemma incremental_query_fails (q : SqlQuery) ts table :
  where_clause q = Some (incremental_where ts) ->
  cast_datetime ts = None ->
  query q table = None.
Proof. intros Hq Hts. unfold run_query. rewrite Hq. simpl. by rewrite Hts. Qed.

(** C8, as the code has it. No unit notebook falls back to full mode. Let
    the last-run timestamp be absent, pasted as the text [None], or be any
    constant without a quote character. In incremental mode the query of
    each of the three notebooks carries the watermark clause. When the
    warehouse reads the pasted text as the datetime [w], the incremental
    extraction returns what the full one returns exactly when every row of
    the table has [last_modified > w OR created_at > w]. When the warehouse
    cannot read it as a datetime, which is the case of the absent
    timestamp, the incremental query fails where the full one returns the
    table. *)
Theorem incremental_never_falls_back sql_query
    (LAST_RUN_TIMESTAMP : option string) table :
  In sql_query [patients_sql_query; medications_sql_query;
                prescriptions_sql_query] ->
  has_quote (render_timestamp LAST_RUN_TIMESTAMP) = false ->
  let ts := render_timestamp LAST_RUN_TIMESTAMP in
  where_clause (sql_query true ts) = Some (incremental_where ts)
  /\ (forall w, cast_datetime ts = Some w ->
        (query (sql_query true ts) table = query (sql_query false ts) table
         <-> Forall (fun r => newer_than w r = true) table))
  /\ (cast_datetime ts = None ->
      query (sql_query true ts) table = None
      /\ query (sql_query false ts) table = Some table).
Proof.
  intros Hq _ ts.
  assert (where_clause (sql_query true ts) = Some (incremental_where ts)
          /\ where_clause (sql_query false ts) = None) as [Hinc Hfull]
    by (destruct Hq as [<- | [<- | [<- | []]]]; done).
  split_and!; [done | |].
  - intros w Hts. by apply (incremental_equals_full_iff _ _ ts).
  - intros Hts. split; [by apply (incremental_query_fails _ ts) |].
    unfold run_query. by rewrite Hfull.
Qed.

End WarehouseFacts.

(** The spec's scenario for C3: watermark [2025-01-01 00:00:00] and three
    rows modified on 2024-12-31, 2025-01-02 and 2025-01-03; the incremental
    extraction returns the latter two. *)
Lemma extraction_selects_witness :
  datetime_literal "2025-01-01 00:00:00" = Some 20250101000000%Z
  /\ run_query datetime_literal
       (patients_sql_query true "2025-01-01 00:00:00")
       [ row_modified 20241231000000; row_modified 20250102000000;
         row_modified 20250103000000 ]
     = Some [ row_modified 20250102000000; row_modified 20250103000000 ].
Proof.
  split; [reflexivity |].
  destruct (extraction_selects datetime_literal "2025-01-01 00:00:00"
              [ row_modified 20241231000000; row_modified 20250102000000;
                row_modified 20250103000000 ]) as [Hinc _].
  destruct (Hinc 20250101000000%Z eq_refl) as [-> _]. reflexivity.
Defined.

(** C8 as stated fails. With the last-run timestamp absent, the incremental
    query of the patients notebook compares the two columns with the text
    [None]; the warehouse cannot read it as a datetime and the extraction
    fails, where the full extraction returns the row of the table. *)
Lemma absent_timestamp_counterexample :
  render_timestamp None = "None"
  /\ where_clause (patients_sql_query true (render_timestamp None))
     = Some (incremental_where "None")
  /\ run_query datetime_literal
       (patients_sql_query true (render_timestamp None)) [old_row] = None
  /\ run_query datetime_literal
       (patients_sql_query false (render_timestamp None)) [old_row]
     = Some [old_row]
  /\ run_query datetime_literal
       (patients_sql_query true (render_timestamp None)) [old_row]
     <> run_query datetime_literal
          (patients_sql_query false (render_timestamp None)) [old_row].
Proof.
  split_and!; [reflexivity | reflexivity | reflexivity | reflexivity | discriminate].
Qed.

(** The amended C8 on two examples: the absent timestamp, on which the
    incremental query of the prescriptions notebook fails; and the shipped
    literal, for which the one-row table is not entirely newer than the
    watermark, so that the two extractions differ. *)
Lemma incremental_never_falls_back_witness :
  (has_quote (render_timestamp None) = false
   /\ datetime_literal (render_timestamp None) = None
   /\ run_query datetime_literal
        (prescriptions_sql_query true (render_timestamp None)) [old_row] = None)
  /\ (datetime_literal unit_LAST_RUN_TIMESTAMP = Some 20250101000000%Z
      /\ (run_query datetime_literal
            (patients_sql_query true unit_LAST_RUN_TIMESTAMP) [old_row]
          = run_query datetime_literal
              (patients_sql_query false unit_LAST_RUN_TIMESTAMP) [old_row]
          <-> Forall (fun r => newer_than 20250101000000 r = true) [old_row])).
Proof.
  split.
  - split_and!; [reflexivity | reflexivity |].
    destruct (incremental_never_falls_back datetime_literal
                prescriptions_sql_query None [old_row]) as (_ & _ & Hfail).
    + right. right. by left.
    + reflexivity.
    + exact (proj1 (Hfail eq_refl)).
  - split; [reflexivity |].
    destruct (incremental_never_falls_back datetime_literal
                patients_sql_query (Some unit_LAST_RUN_TIMESTAMP) [old_row])
      as (_ & Hiff & _).
    + by left.
    + reflexivity.
    + exact (Hiff 20250101000000%Z eq_refl).
Defined.

(** ** Enrichment *)

Lemma lstrip_nil (t : text) :
  lstrip t = [] <-> Forall (fun c => is_space c = true) t.
Proof.
  induction t as [| c t IH]; simpl.
  - split; [constructor | done].
  - destruct (is_space c) eqn:E.
    + rewrite IH. split; [by constructor | by inversion 1].
    + split; [done | inversion 1; congruence].
Qed.

Lemma lstrip_head (t : text) c t' :
  lstrip t = c :: t' -> is_space c = false.
Proof.
  induction t as [| a t IH]; simpl; [done |].
  destruct (is_space a) eqn:E; [done |]. by intros [= <- _].
Qed.

(** [text.strip() == ""] holds exactly for whitespace-only text. *)
Lemma strip_nil (t : text) :
  strip t = [] <-> Forall (fun c => is_space c = true) t.
Proof.
  unfold strip, rstrip. split.
  - intros H. apply lstrip_nil.
    apply (f_equal (@rev N)) in H. rewrite rev_involutive in H. simpl in H.
    apply lstrip_nil, Forall_rev in H. rewrite rev_involutive in H.
    destruct (lstrip t) as [| c t'] eqn:E; [done |].
    apply lstrip_head in E. inversion H; congruence.
  - intros H. apply lstrip_nil in H. by rewrite H.
Qed.

Lemma zero_vector_all_zero : all_zero_vector 1536 zero_vector.
Proof.
  exists (replicate 1536 (PyFloat 0%Qc)). split_and!.
  - done.
  - apply length_replicate.
  - apply Forall_replicate. done.
Qed.

(** Every failure of the service ends the [try] with an exception. *)
Lemma service_failure_raises r :
  service_failure r -> exists e, decode_reply r = inr e.
Proof.
  destruct 1 as [e | response Hst | response Hb | response e He].
  - by exists e.
  - exists "HTTPError". unfold decode_reply, raise_for_status.
    destruct (Z.leb_spec 400 (status_code response)); [| lia].
    destruct (Z.ltb_spec (status_code response) 600); [| lia]. done.
  - unfold decode_reply, response_json.
    destruct (raise_for_status response); [by eexists |].
    rewrite Hb. by eexists.
  - by exists e.
Qed.

Section EnrichmentFacts.

Context {World : Type}.
Variable AZURE_OPENAI_KEY : string.
Variable requests_post :
  string -> list (string * string) -> Payload -> Z -> World -> World * (Response + string).

Local Abbreviation embed := (generate_embedding AZURE_OPENAI_KEY requests_post).
Local Abbreviation embed_all := (embed_column AZURE_OPENAI_KEY requests_post).
Local Abbreviation post t :=
  (requests_post embedding_url (embedding_headers AZURE_OPENAI_KEY)
     (embedding_payload t) 30%Z).

(** C5. For every empty or whitespace-only text (a NULL field included),
    [generate_embedding] returns the vector of 1536 zeros and leaves the
    world as it was and prints nothing, whatever the embedding service
    would do: the service is not called. *)
Theorem blank_text_zero_vector txt w :
  blank txt ->
  embed txt w = (w, [], zero_vector) /\ all_zero_vector 1536 zero_vector.
Proof.
  intros Hb. split; [| apply zero_vector_all_zero].
  destruct txt as [t |]; [| done]. simpl in Hb.
  unfold generate_embedding.
  apply strip_nil in Hb. rewrite Hb. simpl. by rewrite orb_true_r.
Qed.

Lemma generate_embedding_failure t w :
  service_failure (post t w).2 -> (embed (Some t) w).2 = zero_vector.
Proof.
  intros Hf. unfold generate_embedding.
  destruct (is_empty t || is_empty (strip t)); [done |].
  unfold bind, call.
  destruct (post t w) as [w1 r]. simpl in Hf.
  apply service_failure_raises in Hf as [e ->]. done.
Qed.

(** C4. For every text, when the call to the embedding service fails
    (the post raises, as on a timeout; the response has a 4xx or 5xx status;
    the body is not JSON or lacks the embedding), [generate_embedding]
    returns the vector of 1536 zeros instead of raising. So when every call
    fails, embedding a whole column still returns one zero vector per row:
    the failure does not make the unit fail. *)
Theorem embedding_failure_recovered :
  (forall t w, service_failure (post t w).2 ->
     (embed (Some t) w).2 = zero_vector /\ all_zero_vector 1536 zero_vector)
  /\ (forall column w,
        (forall t w', service_failure (post t w').2) ->
        (embed_all column w).2 = map (fun _ => zero_vector) column).
Proof.
  split.
  - intros t w Hf. split; [by apply generate_embedding_failure |].
    apply zero_vector_all_zero.
  - intros column w Hall. revert w.
    induction column as [| txt column IH]; intros w; [done |].
    cbn [embed_column map]. unfold bind.
    assert ((embed txt w).2 = zero_vector) as Hv.
    { destruct txt as [t |]; [| done]. by apply generate_embedding_failure. }
    destruct (embed txt w) as [[w1 o1] v]. simpl in Hv. subst v.
    specialize (IH w1).
    destruct (embed_all column w1) as [[w2 o2] vs]. simpl in IH. subst vs.
    done.
Qed.

End EnrichmentFacts.

(** C5 on an example: on [" \t\n"] the service, which counts its calls,
    has received none. *)
Lemma blank_text_zero_vector_witness :
  blank (Some whitespace_text)
  /\ generate_embedding "key" timing_out_post (Some whitespace_text) 0%nat
     = (0%nat, [], zero_vector).
Proof.
  assert (blank (Some whitespace_text)) as Hb.
  { simpl. repeat constructor. }
  split; [exact Hb |].
  exact (proj1 (blank_text_zero_vector "key" timing_out_post
                  (Some whitespace_text) 0%nat Hb)).
Defined.

(** C4 on two examples: a service that times out, and one that answers
    with status 500. *)
Lemma embedding_failure_recovered_witness :
  service_failure (timing_out_post embedding_url (embedding_headers "key")
                     (embedding_payload policy_text) 30%Z 0%nat).2
  /\ (generate_embedding "key" timing_out_post (Some policy_text) 0%nat).2
     = zero_vector
  /\ (embed_column "key" failing_post
        [Some policy_text; None; Some policy_text] 0%nat).2
     = [zero_vector; zero_vector; zero_vector].
Proof.
  assert (service_failure
            (timing_out_post embedding_url (embedding_headers "key")
               (embedding_payload policy_text) 30%Z 0%nat).2) as Hf.
  { simpl. constructor. }
  split; [exact Hf |]. split.
  - exact (proj1 (proj1 (embedding_failure_recovered "key" timing_out_post)
                    policy_text 0%nat Hf)).
  - apply (proj2 (embedding_failure_recovered "key" failing_post)).
    intros t w'. simpl. apply failure_status. simpl. lia.
Defined.

(** ** Load *)

Section Upsert.

(** The shape shared by the two upserts: update every element that matches,
    or append a new one when none does. *)
Context {A : Type} (m : A -> bool) (upd : A -> A) (new : A).

Let upsert (l : list A) : list A :=
  if existsb m l then map (fun x => if m x then upd x else x) l else l ++ [new].

Hypothesis upd_matches : forall x, m x = true -> m (upd x) = true.
Hypothesis new_matches : m new = true.

Lemma upsert_filter_map (l : list A) :
  length (List.filter m (map (fun x => if m x then upd x else x) l))
  = length (List.filter m l).
Proof.
  induction l as [| x l IH]; [done |]. simpl.
  destruct (m x) eqn:E.
  - rewrite (upd_matches x E). simpl. by rewrite IH.
  - by rewrite E.
Qed.

Lemma existsb_filter (l : list A) :
  existsb m l = true <-> (0 < length (List.filter m l))%nat.
Proof.
  induction l as [| x l IH]; simpl; [split; [done | lia] |].
  destruct (m x); simpl; [split; [lia | done] | done].
Qed.

(** After an upsert exactly as many elements match as before, and at least
    one. *)
Lemma upsert_count (l : list A) :
  length (List.filter m (upsert l)) = Nat.max 1 (length (List.filter m l)).
Proof.
  unfold upsert. destruct (existsb m l) eqn:E.
  - rewrite upsert_filter_map. apply existsb_filter in E. lia.
  - assert (length (List.filter m l) = 0)%nat as H0.
    { destruct (length (List.filter m l)) eqn:El; [done |].
      assert (existsb m l = true) by (apply existsb_filter; lia). congruence. }
    rewrite List.filter_app, length_app, H0. simpl. by rewrite new_matches.
Qed.

(** An upsert that finds its element does not lengthen the list. *)
Lemma upsert_length (l : list A) :
  (0 < length (List.filter m l))%nat -> length (upsert l) = length l.
Proof.
  intros H. apply existsb_filter in H. unfold upsert. rewrite H.
  apply length_map.
Qed.

(** What holds of every updated element and of the new one holds of every
    element that matches after the upsert. *)
Lemma upsert_matching (P : A -> Prop) (l : list A) :
  (forall x, m x = true -> P (upd x)) -> P new ->
  forall y, In y (upsert l) -> m y = true -> P y.
Proof.
  intros Hupd Hnew y. unfold upsert. destruct (existsb m l) eqn:E.
  - rewrite in_map_iff. intros (x & <- & _).
    destruct (m x) eqn:Ex; [intros _; by apply Hupd | congruence].
  - rewrite in_app_iff. intros [Hy | [<- | []]] Hm; [| done].
    exfalso. assert (existsb m l = true); [| congruence].
    apply existsb_exists. eauto.
Qed.

(** Elements told apart by another test, which the update respects, are
    as many as before. *)
Lemma upsert_count_other (m' : A -> bool) (l : list A) :
  (forall x, m x = true -> m' (upd x) = m' x) -> m' new = false ->
  length (List.filter m' (upsert l)) = length (List.filter m' l).
Proof.
  intros Hupd Hnew. unfold upsert. destruct (existsb m l).
  - induction l as [| x l IH]; [done |]. simpl.
    destruct (m x) eqn:E; [rewrite (Hupd x E) |];
      destruct (m' x); simpl; by rewrite IH.
  - rewrite List.filter_app, length_app. simpl. rewrite Hnew. simpl. lia.
Qed.

End Upsert.

(** A record's key fields keep their values when the record is laid over
    the stored properties. *)
Lemma key_values_union keyFields (props old : gmap string Value) k :
  key_values keyFields props = Some k ->
  key_values keyFields (props ∪ old) = Some k.
Proof.
  revert k. induction keyFields as [| f fs IH]; intros k; simpl; [done |].
  destruct (props !! f) as [v |] eqn:E; [| done].
  rewrite (lookup_union_Some_l props old f v E).
  destruct v; try done;
    (destruct (key_values fs props) as [vs |]; [| done];
     by rewrite (IH vs eq_refl)).
Qed.

Lemma holds_values_union (props old : gmap string Value) :
  holds_values props (props ∪ old).
Proof. intros f v H. by apply lookup_union_Some_l. Qed.

Lemma holds_values_refl (props : gmap string Value) : holds_values props props.
Proof. by intros f v H. Qed.

Section NodeUpsert.

Variables (lbl : string) (keyFields : list string).

Local Abbreviation matching k g :=
  (length (List.filter (node_matches lbl keyFields k) g)).

Lemma node_update_matches props k n :
  key_values keyFields props = Some k ->
  node_matches lbl keyFields k n = true ->
  node_matches lbl keyFields k
    {| label := label n; properties := props ∪ properties n |} = true.
Proof.
  intros Hk. unfold node_matches. simpl.
  rewrite !andb_true_iff, !bool_decide_eq_true. intros [Hl _].
  split; [done |]. by apply key_values_union.
Qed.

Lemma node_new_matches props k :
  key_values keyFields props = Some k ->
  node_matches lbl keyFields k {| label := lbl; properties := props |} = true.
Proof.
  intros Hk. unfold node_matches. simpl.
  rewrite String.eqb_refl. simpl. by apply bool_decide_eq_true.
Qed.

(** One upsert of a record with key [k] leaves one node with that key when
    there was at most one, and that node carries the record's values. *)
Lemma upsert_node_spec props k ns :
  key_values keyFields props = Some k ->
  (upsert_node lbl keyFields props ns).2 = true
  /\ matching k (upsert_node lbl keyFields props ns).1 = Nat.max 1 (matching k ns)
  /\ ((0 < matching k ns)%nat ->
      length (upsert_node lbl keyFields props ns).1 = length ns)
  /\ (forall n, In n (upsert_node lbl keyFields props ns).1 ->
        node_matches lbl keyFields k n = true ->
        holds_values props (properties n)).
Proof.
  intros Hk. unfold upsert_node. rewrite Hk.
  pose proof (node_update_matches props k) as Hupd.
  pose proof (node_new_matches props k Hk) as Hnew.
  split_and!.
  - by destruct (existsb _ ns).
  - rewrite <- (upsert_count (node_matches lbl keyFields k)
                  (fun n => {| label := label n; properties := props ∪ properties n |})
                  {| label := lbl; properties := props |}
                  (fun x => Hupd x Hk) Hnew ns).
    by destruct (existsb _ ns).
  - intros Hpos.
    rewrite <- (upsert_length (node_matches lbl keyFields k)
                  (fun n => {| label := label n; properties := props ∪ properties n |})
                  {| label := lbl; properties := props |} ns Hpos).
    by destruct (existsb _ ns).
  - intros n Hin.
    apply (upsert_matching (node_matches lbl keyFields k)
             (fun n => {| label := label n; properties := props ∪ properties n |})
             {| label := lbl; properties := props |}
             (fun n => holds_values props (properties n)) ns).
    + intros x _. apply holds_values_union.
    + apply holds_values_refl.
    + by destruct (existsb _ ns).
Qed.

(** Nodes with another key are left as they are, so that keys that were
    unique stay unique. *)
Lemma upsert_node_other props k k' ns :
  key_values keyFields props = Some k -> k' <> k ->
  matching k' (upsert_node lbl keyFields props ns).1 = matching k' ns.
Proof.
  intros Hk Hne. unfold upsert_node. rewrite Hk.
  rewrite <- (upsert_count_other (node_matches lbl keyFields k)
                (fun n => {| label := label n; properties := props ∪ properties n |})
                {| label := lbl; properties := props |}
                (node_matches lbl keyFields k') ns).
  - by destruct (existsb _ ns).
  - intros x Hx. unfold node_matches in *. simpl.
    apply andb_true_iff in Hx as [Hl Hx]. apply bool_decide_eq_true in Hx.
    rewrite (key_values_union _ _ _ _ Hk), Hx. done.
  - unfold node_matches. simpl. rewrite Hk.
    rewrite bool_decide_eq_false_2; [apply andb_false_r | congruence].
Qed.

(** Keys that are unique stay unique under an upsert, and so under a whole
    write: a graph built by writes from the empty graph never holds two
    nodes with one key. *)
Lemma upsert_node_keeps_unique props ns :
  (forall k, (matching k ns <= 1)%nat) ->
  forall k, (matching k (upsert_node lbl keyFields props ns).1 <= 1)%nat.
Proof.
  intros Huniq k.
  destruct (key_values keyFields props) as [k0 |] eqn:Hk.
  - destruct (decide (k = k0)) as [-> | Hne].
    + destruct (upsert_node_spec props k0 ns Hk) as (_ & -> & _).
      specialize (Huniq k0). lia.
    + rewrite (upsert_node_other props k0 k ns Hk Hne). apply Huniq.
  - unfold upsert_node. rewrite Hk. apply Huniq.
Qed.

Lemma write_nodes_keeps_unique records :
  forall g out,
    (forall k, (matching k (nodes g) <= 1)%nat) ->
    forall k,
      (matching k (nodes (write_nodes lbl keyFields records g out).1) <= 1)%nat.
Proof.
  induction records as [| r records IH]; intros g out Huniq; [done |].
  cbn [write_nodes].
  pose proof (upsert_node_keeps_unique r (nodes g) Huniq) as Hstep.
  destruct (upsert_node lbl keyFields r (nodes g)) as [ns ok].
  apply IH. exact Hstep.
Qed.

End NodeUpsert.

Section RelationshipUpsert.

Variables (ty slabel tlabel : string) (skey tkey : string * string).

Local Abbreviation matching sk tk rs :=
  (length (List.filter (rel_matches ty sk tk) rs)).

(** One upsert of a record whose two end nodes are in the graph leaves one
    relationship with its identity when there was at most one, and that
    relationship carries the record's values. *)
Lemma upsert_relationship_spec row sk tk g :
  row !! skey.1 = Some sk ->
  row !! tkey.1 = Some tk ->
  existsb (node_with_key slabel skey.2 sk) (nodes g) = true ->
  existsb (node_with_key tlabel tkey.2 tk) (nodes g) = true ->
  (upsert_relationship ty slabel skey tlabel tkey row g).2 = true
  /\ matching sk tk (upsert_relationship ty slabel skey tlabel tkey row g).1
     = Nat.max 1 (matching sk tk (relationships g))
  /\ ((0 < matching sk tk (relationships g))%nat ->
      length (upsert_relationship ty slabel skey tlabel tkey row g).1
      = length (relationships g))
  /\ (forall r, In r (upsert_relationship ty slabel skey tlabel tkey row g).1 ->
        rel_matches ty sk tk r = true ->
        holds_values (delete skey.1 (delete tkey.1 row)) (rel_properties r)).
Proof.
  intros Hs Ht Hsn Htn. unfold upsert_relationship.
  rewrite Hs, Ht, Hsn, Htn. simpl andb. cbv iota.
  set (props := delete skey.1 (delete tkey.1 row)).
  set (upd := fun r => {| rel_type := rel_type r; sourceLabel := sourceLabel r;
                          sourceKey := sourceKey r; targetLabel := targetLabel r;
                          targetKey := targetKey r;
                          rel_properties := props ∪ rel_properties r |}).
  set (new := {| rel_type := ty; sourceLabel := slabel; sourceKey := sk;
                 targetLabel := tlabel; targetKey := tk;
                 rel_properties := props |}).
  assert (forall r, rel_matches ty sk tk r = true ->
                    rel_matches ty sk tk (upd r) = true) as Hupd by done.
  assert (rel_matches ty sk tk new = true) as Hnew.
  { unfold rel_matches. simpl. rewrite String.eqb_refl.
    by rewrite !bool_decide_eq_true_2. }
  split_and!.
  - by destruct (existsb _ (relationships g)).
  - rewrite <- (upsert_count (rel_matches ty sk tk) upd new Hupd Hnew
                  (relationships g)).
    by destruct (existsb _ (relationships g)).
  - intros Hpos.
    rewrite <- (upsert_length (rel_matches ty sk tk) upd new
                  (relationships g) Hpos).
    by destruct (existsb _ (relationships g)).
  - intros r Hin.
    apply (upsert_matching (rel_matches ty sk tk) upd new
             (fun r => holds_values props (rel_properties r)) (relationships g)).
    + intros x _. apply holds_values_union.
    + apply holds_values_refl.
    + by destruct (existsb _ (relationships g)).
Qed.

End RelationshipUpsert.

(** Two loads of records with the same key through a node write. *)
Lemma write_nodes_twice lbl keyFields g r1 r2 k :
  key_values keyFields r1 = Some k ->
  key_values keyFields r2 = Some k ->
  (count_nodes lbl keyFields k g <= 1)%nat ->
  let g1 := (write_nodes lbl keyFields [r1] g no_outcome).1 in
  let g2 := (write_nodes lbl keyFields [r2] g1 no_outcome).1 in
  count_nodes lbl keyFields k g2 = 1%nat
  /\ length (nodes g2) = length (nodes g1)
  /\ (forall n, In n (nodes g2) -> node_matches lbl keyFields k n = true ->
        holds_values r2 (properties n)).
Proof.
  intros H1 H2 Hcount. unfold count_nodes in *. simpl.
  destruct (upsert_node lbl keyFields r1 (nodes g)) as [ns1 ok1] eqn:E1.
  pose proof (upsert_node_spec lbl keyFields r1 k (nodes g) H1)
    as (_ & Hc1 & _ & _).
  rewrite E1 in Hc1. simpl in *.
  destruct (upsert_node lbl keyFields r2 ns1) as [ns2 ok2] eqn:E2.
  pose proof (upsert_node_spec lbl keyFields r2 k ns1 H2)
    as (_ & Hc2 & Hl2 & Hv2).
  rewrite E2 in Hc2, Hl2, Hv2. simpl in *.
  split_and!; [lia | apply Hl2; lia | done].
Qed.



(** The spec's scenario for C2: a critical stage [A, B, C] in which [A]
    fails. Only [A] is started and recorded, the later stage is not started,
    and the run is failed. *)
Lemma critical_stage_fail_fast_witness :
  let run := master_run (scripted_notebook_run ["/A"]) ticking_now (shipped_config 0)
               [("stage_1_entities", abc_stage);
                ("stage_2_relationships", later_stage)] 0%Z in
  notebooks_started (output_of run) = ["A"]
  /\ stages_started (output_of run) = ["stage_1_entities"]
  /\ map notebook (recorded_results (metadata_of run)) = ["A"]
  /\ status (metadata_of run) = "failed"
  /\ exit_of run = exit_raised.
Proof.
  destruct (critical_stage_fail_fast (scripted_notebook_run ["/A"]) ticking_now
              (shipped_config 0) [] abc_stage
              [("stage_2_relationships", later_stage)]
              0%Z 1%Z 0%Z 1%Z [] [] 63%Z _ false _ 0%nat _
              eq_refl eq_refl eq_refl eq_refl eq_refl)
    as (Hres & Hstarted & w3 & t1 & md & Hnow & Hrun & Hstatus & Hdetail).
  intros run. subst run. simpl app in Hrun. rewrite Hrun.
  unfold output_of, metadata_of, exit_of, recorded_results. simpl.
  rewrite Hstatus, Hdetail. done.
Defined.

(** The amended C1 on an example: in the non-critical stage [A, B, C] the
    unit [B] fails; [C] is still run, the later stage is not. *)
Lemma noncritical_failure_stops_pipeline_witness :
  let run := master_run (scripted_notebook_run ["/B"]) ticking_now (shipped_config 0)
               [("stage_2_relationships", abc_stage);
                ("stage_3_validation", later_stage)] 0%Z in
  notebooks_started (output_of run) = ["A"; "B"; "C"]
  /\ stages_started (output_of run) = ["stage_2_relationships"]
  /\ map notebook (recorded_results (metadata_of run)) = ["A"; "B"; "C"]
  /\ status (metadata_of run) = "failed"
  /\ exit_of run = exit_raised.
Proof.
  destruct (noncritical_failure_stops_pipeline
              (scripted_notebook_run ["/B"]) ticking_now
              (shipped_config 0) [] "stage_2_relationships" abc_stage
              [("stage_3_validation", later_stage)]
              0%Z 1%Z 0%Z 1%Z [] [] 187%Z _ false _ 1%nat _
              eq_refl eq_refl eq_refl eq_refl eq_refl eq_refl)
    as (Hres & Hstarted & w3 & t1 & md & Hnow & Hrun & Hstatus & Hdetail).
  intros run. subst run. simpl app in Hrun. rewrite Hrun.
  unfold output_of, metadata_of, exit_of, recorded_results. simpl.
  rewrite Hstatus, Hdetail. done.
Defined.

(** C1 as stated fails. On the shipped stage table with the validation
    notebook switched on, let the unit of the non-critical stage
    [stage_2_relationships] fail: the later stage [stage_3_validation] is
    not started and its notebook is never run. *)
Lemma later_stages_not_run_counterexample :
  let run := master_run
               (scripted_notebook_run
                  ["/arthur-health/03_patient_medication_relationships"])
               ticking_now (shipped_config 0)
               (pipeline_with_validation (shipped_config 0)) 0%Z in
  stages_started (output_of run) = ["stage_1_entities"; "stage_2_relationships"]
  /\ notebooks_started (output_of run)
     = ["patients"; "medications"; "patient_medication_relationships"]
  /\ ~ In "stage_3_validation" (stages_started (output_of run))
  /\ ~ In "data_quality" (notebooks_started (output_of run))
  /\ dict_get "stage_3_validation" (detailed_results (metadata_of run)) = None
  /\ status (metadata_of run) = "failed".
Proof.
  vm_compute. split_and!; try reflexivity;
    intros H; repeat (destruct H as [H | H]; [discriminate H |]); destruct H.
Qed.

(** C2 as stated fails in one point: the units skipped are not recorded as
    not attempted, they are not recorded. In the critical stage [A, B, C]
    with [A] failing, no result names [B] or [C], one unit is counted as
    executed, and the metadata is the metadata of the same run over a
    critical stage that holds [A] alone. *)
Lemma skipped_units_not_recorded_counterexample :
  let run := master_run (scripted_notebook_run ["/A"]) ticking_now (shipped_config 0)
               [("stage_1_entities", abc_stage);
                ("stage_2_relationships", later_stage)] 0%Z in
  let run_a := master_run (scripted_notebook_run ["/A"]) ticking_now (shipped_config 0)
                 [("stage_1_entities", a_stage);
                  ("stage_2_relationships", later_stage)] 0%Z in
  map name (notebooks abc_stage) = ["A"; "B"; "C"]
  /\ ~ In "B" (map notebook (recorded_results (metadata_of run)))
  /\ ~ In "C" (map notebook (recorded_results (metadata_of run)))
  /\ notebooks_executed (metadata_of run) = 1%Z
  /\ metadata_of run = metadata_of run_a.
Proof.
  vm_compute. split_and!; try reflexivity;
    intros H; repeat (destruct H as [H | H]; [discriminate H |]); destruct H.
Qed.

(** * Further properties *)

(** ** The scheduler, over whole runs *)

Section SchedulerMore.

Context {World : Type}.
Variable dbutils_notebook_run :
  string -> Z -> gmap string string -> World -> World * (string + string).
Variable now : World -> World * Z.

Local Abbreviation run_nb := (run_notebook_with_logging dbutils_notebook_run now).
Local Abbreviation seq_loop := (sequential_branch dbutils_notebook_run now).
Local Abbreviation stage := (run_stage dbutils_notebook_run now).
Local Abbreviation loop := (pipeline_loop dbutils_notebook_run now).
Local Abbreviation master := (master_run dbutils_notebook_run now).
Local Abbreviation critical := "stage_1_entities".

(** A stage record as [run_stage] and the stage loop build it. *)
Let well_formed (sr : StageResult) : Prop :=
  stage_success sr = forallb success (stage_results sr)
  /\ Forall (fun r => consistent_result r = true) (stage_results sr).

Lemma run_notebook_consistent p n a t w w' o ok r d :
  run_nb p n a t w = (w', o, (ok, r, d)) ->
  consistent_result
    {| notebook := n; success := ok; duration := d; result := r |} = true.
Proof.
  destruct (run_notebook_outcome dbutils_notebook_run now p n a t w)
    as (w0 & t0 & w1 & x & w2 & t1 & _ & _ & _ & ->).
  intros [= <- <- <- <- <-]. by destruct x.
Qed.

Lemma sequential_branch_more stage_name nbs :
  forall results all_success w w' out ok res,
    seq_loop stage_name nbs results all_success w = (w', out, (ok, res)) ->
    (Forall (fun r => consistent_result r = true) results ->
     Forall (fun r => consistent_result r = true) res)
    /\ (ok = true -> length res = (length results + length nbs)%nat).
Proof.
  induction nbs as [| nb rest IH]; intros results all_success w w' out ok res; simpl.
  - intros [= <- <- <- <-]. split; [done | lia].
  - unfold bind.
    destruct (run_nb (path nb) (name nb) (parameters nb) (timeout nb) w)
      as [[w1 o1] [[ok1 r1] d1]] eqn:E1.
    apply run_notebook_consistent in E1.
    assert (forall b,
              (let '(w2, o2, x) := seq_loop stage_name rest
                 (results ++ [{| notebook := name nb; success := ok1;
                                 duration := d1; result := r1 |}]) b w1
               in (w2, o1 ++ o2, x)) = (w', out, (ok, res)) ->
              (Forall (fun r => consistent_result r = true) results ->
               Forall (fun r => consistent_result r = true) res)
              /\ (ok = true -> length res = (length results + S (length rest))%nat))
      as Hrec.
    { intros b.
      destruct (seq_loop stage_name rest _ b w1) as [[w2 o2] [ok2 res2]] eqn:E2.
      intros [= <- <- <- <-].
      apply IH in E2 as [Hc Hl]. split.
      - intros Hres. apply Hc. apply Forall_app. split; [done |].
        by constructor.
      - intros Hok. rewrite (Hl Hok), length_app. simpl. lia. }
    destruct ok1; simpl; [by apply Hrec |].
    destruct (String.eqb stage_name critical).
    + unfold print, ret. intros [= <- <- <- <-]. split; [| done].
      intros Hres. apply Forall_app. split; [done |]. by constructor.
    + by apply Hrec.
Qed.

Lemma run_stage_more cfg stage_name sc w w' out ok res :
  stage cfg stage_name sc w = (w', out, (ok, res)) ->
  Forall (fun r => consistent_result r = true) res
  /\ (ok = true -> length res = length (notebooks sc)).
Proof.
  unfold run_stage, bind, print.
  destruct (parallel sc && PARALLEL_EXECUTION cfg);
    rewrite ?parallel_branch_sequential;
    destruct (seq_loop stage_name (notebooks sc) [] true w)
      as [[w2 o2] [ok2 res2]] eqn:E;
    intros [= <- <- <- <-];
    apply sequential_branch_more in E as [Hc Hl];
    (split; [by apply Hc | done]).
Qed.

Lemma pipeline_loop_well_formed cfg stages :
  forall pr w w' out ok pr',
    loop cfg stages pr w = (w', out, (ok, pr')) ->
    Forall well_formed (dict_values pr) ->
    Forall well_formed (dict_values pr').
Proof.
  induction stages as [| [n sc] stages IH]; intros pr w w' out ok pr'; simpl.
  - by intros [= <- <- <- <-].
  - unfold bind.
    destruct (stage cfg n sc w) as [[w1 o1] [ok1 res1]] eqn:E1.
    pose proof (run_stage_spec _ _ _ _ _ _ _ _ _ _ E1) as (Hok & _).
    apply run_stage_more in E1 as [Hc _].
    assert (well_formed {| stage_success := ok1; stage_results := res1 |}) as Hwf
      by done.
    destruct ok1; simpl.
    + destruct (loop cfg stages _ w1) as [[w2 o2] [ok2 pr2]] eqn:E2.
      intros [= <- <- <- <-] Hpr. apply (IH _ _ _ _ _ _ E2).
      by apply dict_set_values_Forall.
    + unfold print, ret. intros [= <- <- <- <-] Hpr.
      by apply dict_set_values_Forall.
Qed.

Lemma dict_set_one_failed k v (d : list (string * StageResult)) :
  Forall (fun s => stage_success s = true) (dict_values d) ->
  stage_success v = false ->
  length (List.filter (fun s => negb (stage_success s))
            (dict_values (dict_set k v d))) = 1%nat.
Proof.
  intros Hd Hv. induction d as [| [k' v'] d IH]; simpl.
  - by rewrite Hv.
  - inversion Hd as [| ? ? Hv' Hd']; subst. simpl in Hv'.
    assert (List.filter (fun s => negb (stage_success s)) (dict_values d) = [])
      as Hnone.
    { clear -Hd'. induction (dict_values d) as [| s l IHl]; [done |].
      inversion Hd'; subst. simpl. rewrite H1. simpl. by apply IHl. }
    destruct (String.eqb k' k); simpl.
    + rewrite Hv. simpl. fold (dict_values d). by rewrite Hnone.
    + rewrite Hv'. simpl. by apply IH.
Qed.

(** The stage loop records successful stages only, until the one that
    fails, which it records last and alone. *)
Lemma pipeline_loop_stage_flags cfg stages :
  forall pr w w' out ok pr',
    loop cfg stages pr w = (w', out, (ok, pr')) ->
    Forall (fun s => stage_success s = true) (dict_values pr) ->
    if ok
    then Forall (fun s => stage_success s = true) (dict_values pr')
    else length (List.filter (fun s => negb (stage_success s))
                   (dict_values pr')) = 1%nat.
Proof.
  induction stages as [| [n sc] stages IH]; intros pr w w' out ok pr'; simpl.
  - by intros [= <- <- <- <-].
  - unfold bind.
    destruct (stage cfg n sc w) as [[w1 o1] [ok1 res1]].
    destruct ok1; simpl.
    + destruct (loop cfg stages _ w1) as [[w2 o2] [ok2 pr2]] eqn:E2.
      intros [= <- <- <- <-] Hpr. apply (IH _ _ _ _ _ _ E2).
      by apply dict_set_values_Forall.
    + unfold print, ret. intros [= <- <- <- <-] Hpr.
      by apply dict_set_one_failed.
Qed.

(** In the metadata of every run, each recorded unit result that succeeded
    has a result and no error, and each one that failed an error and no
    result. *)
Lemma recorded_results_consistent cfg pipeline w :
  Forall (fun r => consistent_result r = true)
    (recorded_results (metadata_of (master cfg pipeline w))).
Proof.
  destruct (master_run_unfold dbutils_notebook_run now cfg pipeline w)
    as (w0 & t0 & w1 & o1 & ok & pr & w2 & t1 & _ & Hloop & _ & ->).
  unfold metadata_of, recorded_results. simpl.
  apply pipeline_loop_well_formed in Hloop; [| constructor].
  apply Forall_recorded.
  eapply Forall_impl; [exact Hloop |]. by intros sr [_ H].
Qed.

(** X2. In the metadata of every run, the success flag recorded for a stage
    is the conjunction of the success flags of the unit results recorded
    for it; a stage without units counts as succeeded. *)
Theorem stage_flag_is_conjunction cfg pipeline w :
  Forall (fun sr => stage_success sr = forallb success (stage_results sr))
    (dict_values (detailed_results (metadata_of (master cfg pipeline w)))).
Proof.
  destruct (master_run_unfold dbutils_notebook_run now cfg pipeline w)
    as (w0 & t0 & w1 & o1 & ok & pr & w2 & t1 & _ & Hloop & _ & ->).
  unfold metadata_of. simpl.
  apply pipeline_loop_well_formed in Hloop; [| constructor].
  eapply Forall_impl; [exact Hloop |]. by intros sr [H _].
Qed.

(** X3. In the metadata of every run [stages_succeeded + stages_failed =
    stages_executed]; at most one stage is recorded as failed, the run
    stopping at the first one; and none is exactly when the status is
    ["success"]. *)
Theorem stage_counts cfg pipeline w :
  let md := metadata_of (master cfg pipeline w) in
  (stages_succeeded md + stages_failed md = stages_executed md)%Z
  /\ (0 <= stages_failed md <= 1)%Z
  /\ (stages_failed md = 0%Z <-> status md = "success").
Proof.
  destruct (master_run_unfold dbutils_notebook_run now cfg pipeline w)
    as (w0 & t0 & w1 & o1 & ok & pr & w2 & t1 & _ & Hloop & _ & ->).
  unfold metadata_of. simpl. rewrite !py_sum_ones.
  apply pipeline_loop_stage_flags in Hloop; [| constructor].
  pose proof (filter_partition_length (fun s => stage_success s) (dict_values pr))
    as Hpart.
  unfold dict_values in *. rewrite length_map in Hpart.
  destruct ok; simpl.
  - assert (length (List.filter (fun s => negb (stage_success s)) (map snd pr))
            = 0%nat) as H0.
    { clear -Hloop. induction (map snd pr) as [| s l IHl]; [done |].
      inversion Hloop; subst. simpl. rewrite H1. simpl. by apply IHl. }
    rewrite H0 in *. split_and!; [lia | lia | lia | done].
  - rewrite Hloop in *. split_and!; [lia | lia | lia |].
    split; [lia | done].
Qed.

(** X4. A stage leaves one result per notebook it started, in the order
    started, and these are the first notebooks of the stage in declared
    order. They are all the notebooks of the stage when the stage is not
    the critical one, and also when the stage succeeded. *)
Theorem stage_results_follow_units cfg stage_name sc w :
  let r := stage cfg stage_name sc w in
  notebooks_started (output_of r) = map notebook r.2.2
  /\ map notebook r.2.2 = map name (take (length r.2.2) (notebooks sc))
  /\ (String.eqb stage_name critical = false \/ r.2.1 = true ->
      map notebook r.2.2 = map name (notebooks sc)).
Proof.
  destruct (stage cfg stage_name sc w) as [[w' out] [ok res]] eqn:E.
  pose proof (run_stage_spec _ _ _ _ _ _ _ _ _ _ E)
    as (_ & Hn & Hst & _ & Hnc & _).
  pose proof (run_stage_more _ _ _ _ _ _ _ _ E) as [_ Hl].
  unfold output_of. simpl. split_and!; [done | done |].
  intros Hfull.
  assert (length res = length (notebooks sc)) as Hlen
    by (destruct Hfull; auto).
  by rewrite Hlen, firstn_all in Hn.
Qed.

Lemma run_notebook_returns p n a t w :
  (forall p t a w, exists w' v, dbutils_notebook_run p t a w = (w', inl v)) ->
  exists w' o r d,
    run_nb p n a t w = (w', o, (true, r, d)).
Proof.
  intros Hret.
  destruct (run_notebook_outcome dbutils_notebook_run now p n a t w)
    as (w0 & t0 & w1 & x & w2 & t1 & _ & Hrun & _ & ->).
  destruct (Hret p t a w0) as (w1' & v & Hv). rewrite Hv in Hrun.
  injection Hrun as <- <-. by eexists _, _, _, _.
Qed.

Lemma sequential_branch_all_return stage_name nbs :
  (forall p t a w, exists w' v, dbutils_notebook_run p t a w = (w', inl v)) ->
  forall results all_success w w' out ok res,
    seq_loop stage_name nbs results all_success w = (w', out, (ok, res)) ->
    ok = all_success.
Proof.
  intros Hret.
  induction nbs as [| nb rest IH]; intros results all_success w w' out ok res; simpl.
  - by intros [= <- <- <- <-].
  - unfold bind.
    destruct (run_notebook_returns (path nb) (name nb) (parameters nb)
                (timeout nb) w Hret) as (w1 & o1 & r1 & d1 & ->).
    simpl.
    destruct (seq_loop stage_name rest _ all_success w1)
      as [[w2 o2] [ok2 res2]] eqn:E2.
    intros [= <- <- <- <-]. by apply IH in E2.
Qed.

(** With child notebooks that all return, the stage loop runs every stage. *)
Lemma pipeline_loop_all_return cfg stages :
  (forall p t a w, exists w' v, dbutils_notebook_run p t a w = (w', inl v)) ->
  forall pr w w' out ok pr',
    loop cfg stages pr w = (w', out, (ok, pr')) ->
    ok = true
    /\ stages_started out = dict_keys stages
    /\ notebooks_started out = all_notebooks stages.
Proof.
  intros Hret.
  induction stages as [| [n sc] stages IH]; intros pr w w' out ok pr'; simpl.
  - by intros [= <- <- <- <-].
  - unfold bind.
    destruct (stage cfg n sc w) as [[w1 o1] [ok1 res1]] eqn:E1.
    pose proof (run_stage_spec _ _ _ _ _ _ _ _ _ _ E1)
      as (_ & Hn & Hst & Hsg & _ & _).
    pose proof (run_stage_more _ _ _ _ _ _ _ _ E1) as [_ Hl].
    assert (ok1 = true) as ->.
    { revert E1. unfold run_stage, bind, print.
      destruct (parallel sc && PARALLEL_EXECUTION cfg);
        rewrite ?parallel_branch_sequential;
        destruct (seq_loop n (notebooks sc) [] true w)
          as [[w2 o2] [ok2 res2]] eqn:E;
        intros [= <- <- <- <-];
        by apply (sequential_branch_all_return _ _ Hret) in E. }
    rewrite (Hl eq_refl), firstn_all in Hn. simpl.
    destruct (loop cfg stages _ w1) as [[w2 o2] [ok2 pr2]] eqn:E2.
    intros [= <- <- <- <-].
    apply IH in E2 as (-> & Hs2 & Hn2).
    unfold all_notebooks. simpl.
    rewrite stages_started_app, notebooks_started_app, Hst, Hsg, Hs2, Hn2, Hn.
    done.
Qed.

(** X5. When no child notebook ends with an exception, a run goes through
    every stage of the table and every notebook of every stage, in declared
    order; the status is ["success"], no unit is counted as failed, the
    notebook exits with the status and the counts, and the timestamp it
    prints for the next run is the run's end time. *)
Theorem run_succeeds_when_units_return cfg pipeline w :
  (forall p t a w, exists w' v, dbutils_notebook_run p t a w = (w', inl v)) ->
  let run := master cfg pipeline w in
  stages_started (output_of run) = dict_keys pipeline
  /\ notebooks_started (output_of run) = all_notebooks pipeline
  /\ status (metadata_of run) = "success"
  /\ notebooks_failed (metadata_of run) = 0%Z
  /\ exit_of run = exit_json "success" (notebooks_executed (metadata_of run)) 0
  /\ next_timestamps (output_of run) = [end_time (metadata_of run)].
Proof.
  intros Hret.
  destruct (master_run_unfold dbutils_notebook_run now cfg pipeline w)
    as (w0 & t0 & w1 & o1 & ok & pr & w2 & t1 & _ & Hloop & _ & ->).
  pose proof (pipeline_loop_all_return cfg pipeline Hret _ _ _ _ _ _ Hloop)
    as (-> & Hs & Hn).
  pose proof (pipeline_loop_no_timestamp _ _ _ _ _ _ _ _ _ Hloop) as Hts.
  apply pipeline_loop_status in Hloop; [| constructor]. simpl in Hloop.
  pose proof (notebooks_failed_zero (dict_values pr)) as [_ Hzero].
  apply Hzero in Hloop.
  pose proof (notebook_counts_add_up (dict_values pr)) as Hadd.
  unfold output_of, metadata_of, exit_of. simpl.
  rewrite stages_started_app, notebooks_started_app, Hs, Hn, Hloop in *.
  unfold next_timestamps in *. rewrite omap_app, Hts. simpl.
  rewrite !app_nil_r. split_and!; try done.
  f_equal. lia.
Qed.

(** X6. The notebook reaches [dbutils.notebook.exit] only after a run that
    succeeded: the status it exits with is always ["success"], with no
    failed unit and every executed unit counted as succeeded. After a run
    that failed it ends with the exception instead, and at least one unit
    is counted as failed. *)
Theorem exit_reports_success_only cfg pipeline w :
  let run := master cfg pipeline w in
  match exit_of run with
  | exit_json exit_status succeeded failed =>
      exit_status = "success"
      /\ status (metadata_of run) = "success"
      /\ failed = 0%Z
      /\ succeeded = notebooks_executed (metadata_of run)
  | exit_raised =>
      status (metadata_of run) = "failed"
      /\ (0 < notebooks_failed (metadata_of run))%Z
  end.
Proof.
  destruct (master_run_unfold dbutils_notebook_run now cfg pipeline w)
    as (w0 & t0 & w1 & o1 & ok & pr & w2 & t1 & _ & Hloop & _ & ->).
  apply pipeline_loop_status in Hloop; [| constructor].
  pose proof (notebooks_failed_zero (dict_values pr)) as [Hpos Hzero].
  pose proof (notebook_counts_add_up (dict_values pr)) as Hadd.
  unfold metadata_of, exit_of. destruct ok; simpl in *.
  - apply Hzero in Hloop. split_and!; [done | done | done | lia].
  - split; [done |].
    destruct (decide (py_sum (map (fun s =>
        py_sum (map (fun _ => 1%Z)
                    (List.filter (fun nb => negb (success nb)) (stage_results s))))
        (dict_values pr)) = 0%Z)) as [H0 | Hne]; [| lia].
    apply Hzero in H0. done.
Qed.

Lemma dict_set_fresh {V} k (v : V) (d : list (string * V)) :
  ~ In k (dict_keys d) -> dict_set k v d = d ++ [(k, v)].
Proof.
  induction d as [| [k' v'] d IH]; simpl; [done |].
  intros Hk. destruct (String.eqb_spec k' k) as [-> | Hne].
  - exfalso. apply Hk. by left.
  - f_equal. apply IH. intros Hin. apply Hk. by right.
Qed.

(** With stage names that are all different the stage loop appends one
    record per stage it starts. *)
Lemma pipeline_loop_records cfg stages :
  forall pr w w' out ok pr',
    loop cfg stages pr w = (w', out, (ok, pr')) ->
    NoDup (dict_keys pr ++ dict_keys stages) ->
    exists new,
      pr' = pr ++ new
      /\ dict_keys new = stages_started out
      /\ map notebook (concat (map stage_results (dict_values new)))
         = notebooks_started out
      /\ exists rest, dict_keys stages = dict_keys new ++ rest.
Proof.
  induction stages as [| [n sc] stages IH]; intros pr w w' out ok pr'; simpl.
  - intros [= <- <- <- <-] _. exists []. rewrite app_nil_r.
    split_and!; try done. by exists [].
  - unfold bind.
    destruct (stage cfg n sc w) as [[w1 o1] [ok1 res1]] eqn:E1.
    pose proof (run_stage_spec _ _ _ _ _ _ _ _ _ _ E1)
      as (_ & _ & Hst & Hsg & _ & _).
    intros Hrun Hnd.
    assert (~ In n (dict_keys pr)) as Hfresh.
    { apply NoDup_app in Hnd as (_ & Hdis & _).
      intros Hin. apply list_elem_of_In in Hin.
      apply (Hdis n Hin). by left. }
    rewrite (dict_set_fresh n _ pr Hfresh) in Hrun.
    destruct ok1; simpl in Hrun.
    + destruct (loop cfg stages _ w1) as [[w2 o2] [ok2 pr2]] eqn:E2.
      injection Hrun as <- <- <- <-.
      apply IH in E2 as (new & -> & Hk & Hnb & rest & Hrest).
      * eexists (_ :: new). rewrite <- app_assoc. simpl.
        rewrite stages_started_app, notebooks_started_app, Hsg, Hst, Hk.
        rewrite map_app, Hnb.
        split_and!; try done. exists rest. by rewrite Hrest, Hk.
      * unfold dict_keys in *. rewrite map_app. simpl.
        by rewrite <- app_assoc.
    + unfold print, ret in Hrun. injection Hrun as <- <- <- <-.
      eexists [_]. simpl.
      rewrite stages_started_app, notebooks_started_app, Hsg, Hst.
      rewrite !app_nil_r. split_and!; try done. by exists (dict_keys stages).
Qed.

(** X7. When the stages of the table have different names, as the keys of
    a dict do, the metadata of a run records exactly the stages that were
    started, in the order started, and exactly the notebooks that were
    started, in the order started; the stages started are the first stages
    of the table. *)
Theorem metadata_records_what_ran cfg pipeline w :
  NoDup (dict_keys pipeline) ->
  let run := master cfg pipeline w in
  dict_keys (detailed_results (metadata_of run)) = stages_started (output_of run)
  /\ map notebook (recorded_results (metadata_of run))
     = notebooks_started (output_of run)
  /\ exists rest, dict_keys pipeline = stages_started (output_of run) ++ rest.
Proof.
  intros Hnd.
  destruct (master_run_unfold dbutils_notebook_run now cfg pipeline w)
    as (w0 & t0 & w1 & o1 & ok & pr & w2 & t1 & _ & Hloop & _ & ->).
  apply pipeline_loop_records in Hloop as (new & -> & Hk & Hnb & rest & Hrest);
    [| done].
  unfold output_of, metadata_of, recorded_results. simpl.
  rewrite stages_started_app, notebooks_started_app.
  assert (stages_started (if ok then [out_next_timestamp t1]
                          else [out_pipeline_failed]) = []) as ->
    by by destruct ok.
  assert (notebooks_started (if ok then [out_next_timestamp t1]
                             else [out_pipeline_failed]) = []) as ->
    by by destruct ok.
  rewrite !app_nil_r. split_and!; try done.
  exists rest. by rewrite <- Hk.
Qed.

(** The two settings of [PARALLEL_EXECUTION] through a stage and through
    the stage loop. *)
Lemma run_stage_flag cfg stage_name sc w :
  exists w' o_on o_off r,
    stage (with_parallel_execution true cfg) stage_name sc w = (w', o_on, r)
    /\ stage (with_parallel_execution false cfg) stage_name sc w = (w', o_off, r)
    /\ notebooks_started o_on = notebooks_started o_off
    /\ stages_started o_on = stages_started o_off.
Proof.
  unfold run_stage. simpl PARALLEL_EXECUTION. rewrite andb_false_r.
  destruct (parallel sc); simpl.
  - unfold bind, print. rewrite parallel_branch_sequential.
    destruct (seq_loop stage_name (notebooks sc) [] true w)
      as [[w2 o2] [ok2 res2]].
    by eexists _, _, _, _.
  - destruct (bind _ _ w) as [[w2 o2] r]. by eexists _, _, _, _.
Qed.

Lemma pipeline_loop_flag cfg stages :
  forall pr w,
  exists w' o_on o_off r,
    loop (with_parallel_execution true cfg) stages pr w = (w', o_on, r)
    /\ loop (with_parallel_execution false cfg) stages pr w = (w', o_off, r)
    /\ notebooks_started o_on = notebooks_started o_off
    /\ stages_started o_on = stages_started o_off.
Proof.
  induction stages as [| [n sc] stages IH]; intros pr w; simpl.
  - by eexists _, _, _, _.
  - unfold bind.
    destruct (run_stage_flag cfg n sc w)
      as (w1 & o_on & o_off & [ok1 res1] & -> & -> & Hn & Hs).
    destruct ok1; simpl.
    + destruct (IH (dict_set n {| stage_success := true;
                                  stage_results := res1 |} pr) w1)
        as (w2 & p_on & p_off & r & -> & -> & Hn2 & Hs2).
      eexists _, _, _, _. split_and!; try done.
      * by rewrite !notebooks_started_app, Hn, Hn2.
      * by rewrite !stages_started_app, Hs, Hs2.
    + unfold print, ret. eexists _, _, _, _. split_and!; try done.
      * by rewrite !notebooks_started_app, Hn.
      * by rewrite !stages_started_app, Hs.
Qed.

(** X8. Switching [PARALLEL_EXECUTION] changes nothing a run leaves behind
    but the line that announces the mode of each stage: the world, the
    metadata, the way the notebook ends and the order in which stages and
    notebooks are started are the same. *)
Theorem parallel_execution_changes_no_run cfg pipeline w :
  let on := master (with_parallel_execution true cfg) pipeline w in
  let off := master (with_parallel_execution false cfg) pipeline w in
  on.1.1 = off.1.1
  /\ metadata_of on = metadata_of off
  /\ exit_of on = exit_of off
  /\ notebooks_started (output_of on) = notebooks_started (output_of off)
  /\ stages_started (output_of on) = stages_started (output_of off).
Proof.
  unfold master_run, bind, datetime_now, call.
  destruct (now w) as [w0 t0].
  destruct (pipeline_loop_flag cfg pipeline [] w0)
    as (w1 & o_on & o_off & [ok pr] & -> & -> & Hn & Hs).
  destruct (now w1) as [w2 t1].
  unfold final_status, bind, print, ret, metadata_of, exit_of, output_of.
  destruct ok; simpl; rewrite ?app_nil_r;
    rewrite !notebooks_started_app, !stages_started_app, Hn, Hs; done.
Qed.

Lemma summary_error_lines (rs : list NotebookResult) :
  length (List.filter is_error_line (flat_map notebook_lines rs))
  = length (List.filter (fun nb => negb (success nb)) rs)
  /\ length (List.filter is_notebook_line (flat_map notebook_lines rs))
    = length rs.
Proof.
  induction rs as [| r rs [IHe IHn]]; [done |]. simpl.
  destruct (success r); simpl; rewrite IHe, IHn; done.
Qed.

Lemma summary_counts (pr : list (string * StageResult)) :
  Z.of_nat (length (List.filter is_error_line (results_summary pr)))
  = py_sum (map (fun s =>
      py_sum (map (fun _ => 1%Z)
                  (List.filter (fun nb => negb (success nb)) (stage_results s))))
      (dict_values pr))
  /\ Z.of_nat (length (List.filter is_notebook_line (results_summary pr)))
    = py_sum (map (fun s => Z.of_nat (length (stage_results s))) (dict_values pr)).
Proof.
  induction pr as [| [n sr] pr [IHe IHn]]; [done |].
  unfold results_summary, dict_values in *. cbn [flat_map map snd].
  rewrite !py_sum_cons, py_sum_ones, <- IHe, <- IHn.
  cbn [app List.filter is_error_line is_notebook_line].
  rewrite !List.filter_app, !length_app.
  destruct (summary_error_lines (stage_results sr)) as [-> ->]. lia.
Qed.

(** X9. The summary printed for a run has one notebook line per executed
    unit and one error line per failed unit, as counted in the metadata,
    and every error line shows an error text: none shows Python's [None]. *)
Theorem summary_matches_metadata cfg pipeline w :
  let md := metadata_of (master cfg pipeline w) in
  let lines := results_summary (detailed_results md) in
  Z.of_nat (length (List.filter is_notebook_line lines)) = notebooks_executed md
  /\ Z.of_nat (length (List.filter is_error_line lines)) = notebooks_failed md
  /\ ~ In (line_error None) lines.
Proof.
  destruct (master_run_unfold dbutils_notebook_run now cfg pipeline w)
    as (w0 & t0 & w1 & o1 & ok & pr & w2 & t1 & _ & Hloop & _ & ->).
  unfold metadata_of. simpl.
  destruct (summary_counts pr) as [He Hn]. split_and!; [done | done |].
  apply pipeline_loop_well_formed in Hloop; [| constructor].
  clear -Hloop. unfold results_summary.
  rewrite in_flat_map. intros ([n sr] & Hin & [Hl | Hl]); [done |].
  assert (In sr (dict_values pr)) as Hsr
    by (apply in_map_iff; by exists (n, sr)).
  rewrite List.Forall_forall in Hloop. destruct (Hloop sr Hsr) as [_ Hc].
  apply in_flat_map in Hl as (r & Hr & Hline).
  rewrite List.Forall_forall in Hc. specialize (Hc r Hr).
  unfold notebook_lines, consistent_result in *.
  destruct Hline as [Hline | Hline]; [done |].
  destruct (success r); simpl in Hline; [done |].
  destruct Hline as [[= Herr] | []].
  rewrite Herr in Hc. by destruct (result_value (result r)).
Qed.

End SchedulerMore.

(** ** What the records carry *)

Section SchedulerReturns.

Context {World : Type}.
Variable dbutils_notebook_run :
  string -> Z -> gmap string string -> World -> World * (string + string).
Variable now : World -> World * Z.

Local Abbreviation run_nb :=
  (run_notebook_with_logging (recording dbutils_notebook_run) (lift_now now)).
Local Abbreviation seq_loop :=
  (sequential_branch (recording dbutils_notebook_run) (lift_now now)).
Local Abbreviation stage :=
  (run_stage (recording dbutils_notebook_run) (lift_now now)).
Local Abbreviation loop :=
  (pipeline_loop (recording dbutils_notebook_run) (lift_now now)).
Local Abbreviation master :=
  (master_run (recording dbutils_notebook_run) (lift_now now)).

Let carried (r : NotebookResult) : bool * RunResult := (success r, result r).

Lemma lift_now_log (wl wl' : World * list (string + string)) t :
  lift_now now wl = (wl', t) -> wl'.2 = wl.2.
Proof.
  unfold lift_now. destruct (now wl.1) as [w' t']. by intros [= <- _].
Qed.

Lemma recording_log p t a wl wl' x :
  recording dbutils_notebook_run p t a wl = (wl', x) -> wl'.2 = wl.2 ++ [x].
Proof.
  unfold recording. destruct (dbutils_notebook_run p t a wl.1) as [w' y].
  by intros [= <- <-].
Qed.

Lemma run_notebook_records p n a t w l wl' o ok r d :
  run_nb p n a t (w, l) = (wl', o, (ok, r, d)) ->
  exists x, wl'.2 = l ++ [x] /\ (ok, r) = record_of x.
Proof.
  destruct (run_notebook_outcome (recording dbutils_notebook_run) (lift_now now)
              p n a t (w, l))
    as (wl0 & t0 & wl1 & x & wl2 & t1 & H0 & H1 & H2 & ->).
  apply lift_now_log in H0, H2. apply recording_log in H1.
  intros [= <- <- <- <- <-]. exists x.
  rewrite H2, H1, H0. by destruct x.
Qed.

Lemma sequential_branch_records stage_name nbs :
  forall results all_success wl wl' out ok res,
    seq_loop stage_name nbs results all_success wl = (wl', out, (ok, res)) ->
    exists new xs,
      res = results ++ new
      /\ wl'.2 = wl.2 ++ xs
      /\ map carried new = map record_of xs.
Proof.
  induction nbs as [| nb rest IH];
    intros results all_success [w l] wl' out ok res; simpl.
  - intros [= <- <- <- <-]. exists [], []. by rewrite !app_nil_r.
  - unfold bind.
    destruct (run_nb (path nb) (name nb) (parameters nb) (timeout nb) (w, l))
      as [[[w1 l1] o1] [[ok1 r1] d1]] eqn:E1.
    apply run_notebook_records in E1 as (x & Hl1 & Hx). simpl in Hl1. subst l1.
    assert (forall b,
              (let '(w2, o2, y) := seq_loop stage_name rest
                 (results ++ [{| notebook := name nb; success := ok1;
                                 duration := d1; result := r1 |}]) b
                 (w1, l ++ [x])
               in (w2, o1 ++ o2, y)) = (wl', out, (ok, res)) ->
              exists new xs,
                res = results ++ new /\ wl'.2 = l ++ xs
                /\ map carried new = map record_of xs) as Hrec.
    { intros b.
      destruct (seq_loop stage_name rest _ b (w1, l ++ [x]))
        as [[wl2 o2] [ok2 res2]] eqn:E2.
      intros [= <- <- <- <-].
      apply IH in E2 as (new & xs & -> & Hl2 & Hmap). simpl in Hl2.
      eexists (_ :: new), (x :: xs). rewrite <- !app_assoc in *.
      split_and!; [done | done |]. simpl. unfold carried at 1. simpl.
      by rewrite Hx, Hmap. }
    destruct ok1; simpl; [by apply Hrec |].
    destruct (String.eqb stage_name "stage_1_entities"); [| by apply Hrec].
    unfold print, ret. intros [= <- <- <- <-].
    eexists [_], [x]. split_and!; [done | done |].
    simpl. unfold carried. simpl. by rewrite Hx.
Qed.

Lemma run_stage_records cfg stage_name sc wl wl' out ok res :
  stage cfg stage_name sc wl = (wl', out, (ok, res)) ->
  exists xs, wl'.2 = wl.2 ++ xs /\ map carried res = map record_of xs.
Proof.
  unfold run_stage, bind, print.
  destruct (parallel sc && PARALLEL_EXECUTION cfg);
    rewrite ?parallel_branch_sequential;
    destruct (seq_loop stage_name (notebooks sc) [] true wl)
      as [[wl2 o2] [ok2 res2]] eqn:E;
    intros [= <- <- <- <-];
    apply sequential_branch_records in E as (new & xs & -> & Hl & Hmap);
    by exists xs.
Qed.

Lemma pipeline_loop_carries cfg stages :
  forall pr wl wl' out ok pr',
    loop cfg stages pr wl = (wl', out, (ok, pr')) ->
    NoDup (dict_keys pr ++ dict_keys stages) ->
    exists new xs,
      pr' = pr ++ new
      /\ wl'.2 = wl.2 ++ xs
      /\ map carried (concat (map stage_results (dict_values new)))
         = map record_of xs.
Proof.
  induction stages as [| [n sc] stages IH]; intros pr wl wl' out ok pr'; simpl.
  - intros [= <- <- <- <-] _. exists [], []. by rewrite !app_nil_r.
  - unfold bind.
    destruct (stage cfg n sc wl) as [[wl1 o1] [ok1 res1]] eqn:E1.
    apply run_stage_records in E1 as (xs1 & Hl1 & Hm1).
    intros Hrun Hnd.
    assert (~ In n (dict_keys pr)) as Hfresh.
    { apply NoDup_app in Hnd as (_ & Hdis & _).
      intros Hin. apply list_elem_of_In in Hin.
      apply (Hdis n Hin). by left. }
    rewrite (dict_set_fresh n _ pr Hfresh) in Hrun.
    destruct ok1; simpl in Hrun.
    + destruct (loop cfg stages _ wl1) as [[wl2 o2] [ok2 pr2]] eqn:E2.
      injection Hrun as <- <- <- <-.
      apply IH in E2 as (new & xs & -> & Hl2 & Hm2).
      * exists ((n, {| stage_success := true; stage_results := res1 |}) :: new),
          (xs1 ++ xs).
        rewrite <- app_assoc. simpl.
        rewrite Hl2, Hl1, <- app_assoc, !map_app, Hm1, Hm2. done.
      * unfold dict_keys in *. rewrite map_app. simpl.
        by rewrite <- app_assoc.
    + unfold print, ret in Hrun. injection Hrun as <- <- <- <-.
      exists [(n, {| stage_success := false; stage_results := res1 |})], xs1.
      simpl. by rewrite app_nil_r.
Qed.

(** X1. When the stages of the table have different names, the unit
    results recorded in the metadata of a run carry, call after call, what
    [dbutils.notebook.run] returned or raised during the run: success with
    the returned value and no error for a call that returned, failure with
    the text of the exception and no result for a call that raised. No
    call goes unrecorded and no result is recorded without a call. *)
Theorem recorded_results_carry_returns cfg pipeline w :
  NoDup (dict_keys pipeline) ->
  let run := master_run (recording dbutils_notebook_run) (lift_now now)
               cfg pipeline (w, []) in
  map (fun r => (success r, result r)) (recorded_results (metadata_of run))
  = map record_of run.1.1.2.
Proof.
  intros Hnd.
  destruct (master_run_unfold (recording dbutils_notebook_run) (lift_now now)
              cfg pipeline (w, []))
    as (wl0 & t0 & wl1 & o1 & ok & pr & wl2 & t1
        & Hn0 & Hloop & Hn1 & ->).
  unfold lift_now in Hn0, Hn1. simpl in Hn0.
  destruct (now w) as [w0 t0']. injection Hn0 as <- <-.
  destruct wl1 as [w1 l1]. simpl in Hn1.
  destruct (now w1) as [w2 t1']. injection Hn1 as <- <-.
  apply pipeline_loop_carries in Hloop as (new & xs & -> & Hl & Hm); [| done].
  simpl in Hl. subst l1.
  unfold metadata_of, recorded_results. simpl. exact Hm.
Qed.

End SchedulerReturns.

(** X1 on the shipped stage table, with the relationships notebook
    failing: two calls returned and the third raised. *)
Lemma recorded_results_carry_returns_witness :
  let run := master_run
               (recording
                  (scripted_notebook_run
                     ["/arthur-health/03_patient_medication_relationships"]))
               (lift_now ticking_now) (shipped_config 0)
               (etl_pipeline (shipped_config 0)) (0%Z, []) in
  run.1.1.2 = [inl "done"; inl "done"; inr "notebook failed"]
  /\ map (fun r => (success r, result r)) (recorded_results (metadata_of run))
     = [ (true, {| result_value := Some "done"; error := None |});
         (true, {| result_value := Some "done"; error := None |});
         (false, {| result_value := None; error := Some "notebook failed" |}) ].
Proof.
  assert (NoDup (dict_keys (etl_pipeline (shipped_config 0)))) as Hnd.
  { apply (bool_decide_unpack
             (NoDup (dict_keys (etl_pipeline (shipped_config 0))))).
    vm_compute. exact I. }
  pose proof (recorded_results_carry_returns
                (scripted_notebook_run
                   ["/arthur-health/03_patient_medication_relationships"])
                ticking_now (shipped_config 0)
                (etl_pipeline (shipped_config 0)) 0%Z Hnd) as Hrun.
  intros run. split; [reflexivity |].
  exact (eq_trans Hrun eq_refl).
Defined.

(** X4 on an example: in the critical stage [A, B, C] with notebooks that
    all return, the three of them are run and recorded. *)
Lemma stage_results_follow_units_witness :
  let r := run_stage (scripted_notebook_run []) ticking_now (shipped_config 0)
             "stage_1_entities" abc_stage 0%Z in
  r.2.1 = true /\ map notebook r.2.2 = ["A"; "B"; "C"].
Proof.
  split; [reflexivity |].
  exact (proj2 (proj2 (stage_results_follow_units (scripted_notebook_run [])
                         ticking_now (shipped_config 0) "stage_1_entities"
                         abc_stage 0%Z))
           (or_intror eq_refl)).
Defined.

(** X5 on the shipped stage table, with notebooks that all return. *)
Lemma run_succeeds_when_units_return_witness :
  let run := master_run (scripted_notebook_run []) ticking_now (shipped_config 0)
               (etl_pipeline (shipped_config 0)) 0%Z in
  stages_started (output_of run)
  = ["stage_1_entities"; "stage_2_relationships"; "stage_3_validation"]
  /\ notebooks_started (output_of run)
     = ["patients"; "medications"; "patient_medication_relationships"]
  /\ status (metadata_of run) = "success"
  /\ notebooks_failed (metadata_of run) = 0%Z.
Proof.
  assert (forall p t a w, exists w' v,
            scripted_notebook_run [] p t a w = (w', inl v)) as Hret.
  { intros p t a w. by eexists _, _. }
  destruct (run_succeeds_when_units_return (scripted_notebook_run []) ticking_now
              (shipped_config 0) (etl_pipeline (shipped_config 0)) 0%Z Hret)
    as (Hs & Hn & Hst & Hf & _).
  split_and!; [exact Hs | exact Hn | exact Hst | exact Hf].
Defined.

(** X7 on the shipped stage table, with the relationships notebook
    failing: two stages and three notebooks are started and recorded. *)
Lemma metadata_records_what_ran_witness :
  let run := master_run
               (scripted_notebook_run
                  ["/arthur-health/03_patient_medication_relationships"])
               ticking_now (shipped_config 0)
               (etl_pipeline (shipped_config 0)) 0%Z in
  NoDup (dict_keys (etl_pipeline (shipped_config 0)))
  /\ dict_keys (detailed_results (metadata_of run))
     = ["stage_1_entities"; "stage_2_relationships"]
  /\ map notebook (recorded_results (metadata_of run))
     = ["patients"; "medications"; "patient_medication_relationships"].
Proof.
  assert (NoDup (dict_keys (etl_pipeline (shipped_config 0)))) as Hnd.
  { apply (bool_decide_unpack
             (NoDup (dict_keys (etl_pipeline (shipped_config 0))))).
    vm_compute. exact I. }
  destruct (metadata_records_what_ran
              (scripted_notebook_run
                 ["/arthur-health/03_patient_medication_relationships"])
              ticking_now (shipped_config 0)
              (etl_pipeline (shipped_config 0)) 0%Z Hnd)
    as (Hk & Hn & _).
  split_and!; [exact Hnd | exact Hk | exact Hn].
Defined.

(** ** Extraction, across watermarks *)

Section WarehouseMore.

Variable cast_datetime : string -> option Z.

Local Abbreviation query := (run_query cast_datetime).

Lemma unit_queries sql_query :
  In sql_query [patients_sql_query; medications_sql_query;
                prescriptions_sql_query] ->
  forall ts,
    where_clause (sql_query true ts) = Some (incremental_where ts)
    /\ where_clause (sql_query false ts) = None.
Proof. intros [<- | [<- | [<- | []]]] ts; done. Qed.

Lemma newer_than_earlier w w' r :
  (w <= w')%Z -> newer_than w' r = true -> newer_than w r = true.
Proof.
  intros Hle. unfold newer_than, later_than.
  rewrite !orb_true_iff.
  destruct (last_modified r), (created_at r); rewrite ?Z.ltb_lt; intuition lia.
Qed.

Lemma filter_filter_implied {A} (f g : A -> bool) (l : list A) :
  (forall x, f x = true -> g x = true) ->
  List.filter f (List.filter g l) = List.filter f l.
Proof.
  intros H. induction l as [| x l IH]; [done |]. simpl.
  destruct (g x) eqn:Eg; simpl.
  - by rewrite IH.
  - destruct (f x) eqn:Ef; [| done]. apply H in Ef. congruence.
Qed.

Lemma filter_sublist {A} (f : A -> bool) (l : list A) :
  List.filter f l `sublist_of` l.
Proof.
  induction l as [| x l IH]; [done |]. simpl.
  destruct (f x); [by apply sublist_skip | by apply sublist_cons].
Qed.

(** X10. For each unit notebook, a later watermark selects fewer rows: the
    rows an incremental extraction returns for a watermark are, in the same
    order, among those it returns for any earlier watermark, and they are
    exactly what the later extraction would keep of the earlier one's
    rows. So going back to an older watermark loses no row. *)
Theorem later_watermark_selects_fewer sql_query ts ts' w w' table :
  In sql_query [patients_sql_query; medications_sql_query;
                prescriptions_sql_query] ->
  cast_datetime ts = Some w ->
  cast_datetime ts' = Some w' ->
  (w <= w')%Z ->
  exists rows rows',
    query (sql_query true ts) table = Some rows
    /\ query (sql_query true ts') table = Some rows'
    /\ rows' `sublist_of` rows
    /\ query (sql_query true ts') rows = Some rows'.
Proof.
  intros Hq Hts Hts' Hle.
  exists (List.filter (newer_than w) table), (List.filter (newer_than w') table).
  pose proof (proj1 (unit_queries sql_query Hq ts)) as Hw.
  pose proof (proj1 (unit_queries sql_query Hq ts')) as Hw'.
  rewrite (incremental_query_rows cast_datetime _ ts w table Hw Hts).
  rewrite !(incremental_query_rows cast_datetime _ ts' w' _ Hw' Hts').
  assert (List.filter (newer_than w') (List.filter (newer_than w) table)
          = List.filter (newer_than w') table) as Hff.
  { apply filter_filter_implied. intros r. by apply newer_than_earlier. }
  split_and!; [done | done | | by rewrite Hff].
  rewrite <- Hff. apply filter_sublist.
Qed.

(** X11. For each unit notebook, an incremental extraction never returns a
    row whose [last_modified] and [created_at] are each NULL or not later
    than the watermark; so a row modified exactly at the watermark is left
    out. A row with both columns NULL is returned for no watermark constant
    that is free of quote characters, where the full extraction returns
    every row. *)
Theorem rows_not_after_watermark_skipped sql_query ts table r :
  In sql_query [patients_sql_query; medications_sql_query;
                prescriptions_sql_query] ->
  (forall w rows,
     cast_datetime ts = Some w ->
     match last_modified r with Some t => (t <= w)%Z | None => True end ->
     match created_at r with Some t => (t <= w)%Z | None => True end ->
     query (sql_query true ts) table = Some rows ->
     ~ In r rows)
  /\ (forall rows,
       has_quote ts = false ->
       last_modified r = None -> created_at r = None ->
       query (sql_query true ts) table = Some rows ->
       ~ In r rows)
  /\ query (sql_query false ts) table = Some table.
Proof.
  intros Hq.
  destruct (unit_queries sql_query Hq ts) as [Hw Hfull].
  assert (forall w rows,
            cast_datetime ts = Some w ->
            newer_than w r = false ->
            query (sql_query true ts) table = Some rows -> ~ In r rows) as Hskip.
  { intros w rows Hts Hr.
    rewrite (incremental_query_rows cast_datetime _ ts w table Hw Hts).
    intros [= <-] Hin. apply filter_In in Hin as [_ Hin]. congruence. }
  split_and!.
  - intros w rows Hts Hlm Hca. apply (Hskip w rows Hts).
    unfold newer_than, later_than.
    destruct (last_modified r), (created_at r); simpl;
      rewrite ?orb_false_iff, ?Z.ltb_ge; auto.
  - intros rows _ Hlm Hca.
    destruct (cast_datetime ts) as [w |] eqn:Hts.
    + apply (Hskip w rows eq_refl). unfold newer_than. by rewrite Hlm, Hca.
    + unfold run_query. rewrite Hw. simpl. by rewrite Hts.
  - unfold run_query. by rewrite Hfull.
Qed.

End WarehouseMore.

(** X10 on an example: the rows of 2025-01-02 and 2025-01-03 for the
    watermark 2025-01-01, the row of 2025-01-03 for the watermark
    2025-01-02. *)
Lemma later_watermark_selects_fewer_witness :
  exists rows rows',
    run_query datetime_literal
      (medications_sql_query true "2025-01-01 00:00:00")
      [ row_modified 20241231000000; row_modified 20250102000000;
        row_modified 20250103000000 ] = Some rows
    /\ run_query datetime_literal
         (medications_sql_query true "2025-01-02 00:00:00")
         [ row_modified 20241231000000; row_modified 20250102000000;
           row_modified 20250103000000 ] = Some rows'
    /\ rows' `sublist_of` rows
    /\ run_query datetime_literal
         (medications_sql_query true "2025-01-02 00:00:00") rows = Some rows'.
Proof.
  apply (later_watermark_selects_fewer datetime_literal medications_sql_query
           "2025-01-01 00:00:00" "2025-01-02 00:00:00"
           20250101000000%Z 20250102000000%Z).
  - right. by left.
  - reflexivity.
  - reflexivity.
  - lia.
Defined.

(** X11 on an example: the row modified at the very second of the
    watermark is not returned. *)
Lemma rows_not_after_watermark_skipped_witness :
  ~ In (row_modified 20250101000000)
      (default []
         (run_query datetime_literal
            (prescriptions_sql_query true "2025-01-01 00:00:00")
            [ row_modified 20250101000000; row_modified 20250101000001 ])).
Proof.
  destruct (rows_not_after_watermark_skipped datetime_literal
              prescriptions_sql_query "2025-01-01 00:00:00"
              [ row_modified 20250101000000; row_modified 20250101000001 ]
              (row_modified 20250101000000)) as (Hskip & _ & _).
  { right. right. by left. }
  apply (Hskip 20250101000000%Z); [reflexivity | simpl; lia | exact I | reflexivity].
Defined.

(** ** Enrichment, call by call *)

(** The guard of [generate_embedding] lets through exactly the texts that
    are not empty and not whitespace only. *)
Lemma non_blank_iff (txt : option text) : non_blank txt = true <-> ~ blank txt.
Proof.
  destruct txt as [t |]; simpl; [| split; [done | tauto]].
  rewrite negb_true_iff, orb_false_iff. split.
  - intros [_ Hs] Hb. apply strip_nil in Hb. by rewrite Hb in Hs.
  - intros Hb. split.
    + destruct t; [| done]. exfalso. apply Hb. constructor.
    + destruct (strip t) eqn:E; [| done]. exfalso. by apply Hb, strip_nil.
Qed.

Section EnrichmentMore.

Context {World : Type}.
Variable AZURE_OPENAI_KEY : string.
Variable requests_post :
  string -> list (string * string) -> Payload -> Z -> World -> World * (Response + string).

Local Abbreviation embed := (generate_embedding AZURE_OPENAI_KEY requests_post).
Local Abbreviation post t :=
  (requests_post embedding_url (embedding_headers AZURE_OPENAI_KEY)
     (embedding_payload t) 30%Z).

(** What [generate_embedding] does with a text that passes the guard. *)
Lemma generate_embedding_calls t w :
  non_blank (Some t) = true ->
  embed (Some t) w
  = (let (w1, r) := post t w in
     match decode_reply r with
     | inl embedding => (w1, [], embedding)
     | inr e => (w1, [out_embedding_failed e], zero_vector)
     end).
Proof.
  simpl. rewrite negb_true_iff. intros Hg.
  unfold generate_embedding. rewrite Hg. unfold bind, call.
  destruct (post t w) as [w1 r]. by destruct (decode_reply r).
Qed.

(** X12. When the service answers a text that is not blank with a status
    outside 400-599 and a JSON document that has an [embedding] under the
    first element of [data], [generate_embedding] returns that value as it
    is and prints nothing: neither its length nor its content is checked,
    so the result need not have 1536 entries. *)
Theorem embedding_returned_as_is t w w1 response d data0 rest e :
  non_blank (Some t) = true ->
  post t w = (w1, inl response) ->
  (status_code response < 400 \/ 600 <= status_code response)%Z ->
  body response = Some (PyDict d) ->
  dict_get "data" d = Some (PyList (PyDict data0 :: rest)) ->
  dict_get "embedding" data0 = Some e ->
  embed (Some t) w = (w1, [], e).
Proof.
  intros Hg Hpost Hst Hbody Hdata He.
  rewrite (generate_embedding_calls t w Hg), Hpost.
  unfold decode_reply, raise_for_status, response_json.
  assert ((400 <=? status_code response)%Z
          && (status_code response <? 600)%Z = false) as ->.
  { apply andb_false_iff. rewrite Z.leb_gt, Z.ltb_ge. lia. }
  rewrite Hbody. simpl. rewrite Hdata. simpl. by rewrite He.
Qed.

(** X13. Of a text that is not blank only the first 8000 code points
    count, leading whitespace included: two such texts that agree on them
    are sent as the same payload and get the same result in the same
    world. *)
Theorem text_truncated_to_8000 t t' w :
  non_blank (Some t) = true ->
  non_blank (Some t') = true ->
  take 8000 t = take 8000 t' ->
  embedding_payload t = embedding_payload t'
  /\ embed (Some t) w = embed (Some t') w.
Proof.
  intros Hg Hg' Htake.
  assert (embedding_payload t = embedding_payload t') as Hp
    by (unfold embedding_payload; by rewrite Htake).
  split; [done |].
  by rewrite (generate_embedding_calls t w Hg),
             (generate_embedding_calls t' w Hg'), Hp.
Qed.

End EnrichmentMore.

Section EnrichmentCalls.

Context {World : Type}.
Variable AZURE_OPENAI_KEY : string.
Variable requests_post :
  string -> list (string * string) -> Payload -> Z -> World -> World * (Response + string).

Local Abbreviation counted := (counting requests_post).

(** X14. A call of [generate_embedding] makes exactly one request to the
    embedding service when the text is neither NULL, empty nor whitespace
    only, and no request otherwise, whatever the service answers. *)
Theorem service_called_once_per_text txt w n :
  (generate_embedding AZURE_OPENAI_KEY counted txt (w, n)).1.1.2
  = (n + (if non_blank txt then 1 else 0))%nat
  /\ (non_blank txt = true <-> ~ blank txt).
Proof.
  split; [| apply non_blank_iff].
  destruct txt as [t |]; simpl; [| lia].
  unfold generate_embedding.
  destruct (is_empty t || is_empty (strip t)); simpl; [lia |].
  unfold bind, call, counting. simpl.
  destruct (requests_post _ _ _ _ w) as [w1 r]. simpl.
  destruct (decode_reply r); simpl; lia.
Qed.

End EnrichmentCalls.

(** X12 on an example: a service that answers with three numbers. *)
Lemma embedding_returned_as_is_witness :
  generate_embedding "key" (stateless_post short_vector_reply)
    (Some policy_text) tt
  = (tt, [], short_vector).
Proof.
  apply (embedding_returned_as_is "key" (stateless_post short_vector_reply)
           policy_text tt tt
           {| status_code := 200; body := Some (embedding_document short_vector) |}
           [ ("object", PyStr "list");
             ("data", PyList [ PyDict [ ("index", PyInt 0);
                                        ("embedding", short_vector) ] ]) ]
           [ ("index", PyInt 0); ("embedding", short_vector) ] []
           short_vector).
  - reflexivity.
  - reflexivity.
  - left. simpl. lia.
  - reflexivity.
  - reflexivity.
  - reflexivity.
Defined.

(** X13 on an example: 8000 spaces followed by [x], and by [y]. What is
    sent is 8000 spaces in both cases. *)
Lemma text_truncated_to_8000_witness :
  input (embedding_payload (padded_text 120)) = replicate 8000 32%N
  /\ generate_embedding "key" timing_out_post (Some (padded_text 120)) 0%nat
     = generate_embedding "key" timing_out_post (Some (padded_text 121)) 0%nat.
Proof.
  split; [vm_compute; reflexivity |].
  apply (text_truncated_to_8000 "key" timing_out_post
           (padded_text 120) (padded_text 121) 0%nat).
  - vm_compute. reflexivity.
  - vm_compute. reflexivity.
  - vm_compute. reflexivity.
Defined.
